(** * Multilingual summarizer CLI ([src/main.py]): model and verified properties

    The program is a linear pipeline: [load_text] reads a [.txt] or [.pdf]
    file, [detect_language] classifies the text, [summarize_text] derives the
    generation length bounds from a compression percentage and calls a
    pretrained model, and [main] drives the three stages from the command
    line.

    Modelling choices, in the order of the file:
    - a Python [float] is an IEEE 754 binary64 value, taken from the
      Standard Library's [SpecFloat]; [int / int], [int * float] and
      [int(float)] are written with its operations;
    - a Python [str] is a list of Unicode code points; files hold bytes and
      text-mode reads decode UTF-8 and translate newlines;
    - the interpreter state touched by the program (file system, standard
      output, the calls made to the model library) is a record threaded
      through a state-and-exception monad; the file system holds its
      objects by identity, together with the operating system's lookup of
      paths and its refusals to open a path for writing;
    - the command line is what [argparse] makes of it when it scans
      [sys.argv]: a request for help, a line it cannot use, or the raw
      value of each flag;
    - the libraries outside the repository ([langdetect], [pdfplumber],
      [transformers]) are section variables: every theorem holds for any
      behaviour they may have. *)

From Stdlib Require Import ZArith Lia List Bool Ascii String DecimalString.
From Stdlib Require Import Strings.Byte.
From Stdlib Require Import Floats.SpecFloat.
From stdpp Require Import gmap strings list.
Import ListNotations.
Local Open Scope Z_scope.

(** ** Python floats *)

Module Float64.

Definition prec : Z := 53.
Definition emax : Z := 1024.

(** An integer read as an unrounded significand with exponent 0. *)
Definition raw (z : Z) : spec_float :=
  match z with
  | Z0 => S754_zero false
  | Zpos p => S754_finite false p 0
  | Zneg p => S754_finite true p 0
  end.

(** A result that is not a number of the format raises. *)
Definition finite (f : spec_float) : option spec_float :=
  match f with
  | S754_infinity _ | S754_nan => None
  | S754_zero _ | S754_finite _ _ _ => Some f
  end.

(** [a / b] on two [int]s: the exact quotient rounded once, to nearest even.
    [None] stands for the exception raised when the result is no finite
    double (the quotient overflows, or [b] is 0). *)
Definition int_true_divide (a b : Z) : option spec_float :=
  finite (SFdiv prec emax (raw a) (raw b)).

(** [float(z)], the conversion applied to the [int] operand of [int * float]. *)
Definition float_of_int (z : Z) : option spec_float :=
  finite (binary_normalize prec emax z 0 false).

Definition float_mul (x y : spec_float) : spec_float := SFmul prec emax x y.

(** [int(f)]: truncation toward zero; fails on infinities and NaN. *)
Definition int_of_float (f : spec_float) : option Z :=
  match f with
  | S754_zero _ => Some 0
  | S754_finite s m e =>
      let a := if 0 <=? e then Z.pos m * 2 ^ e else Z.pos m / 2 ^ (- e) in
      Some (if s then - a else a)
  | S754_infinity _ | S754_nan => None
  end.

(** The literal [0.7]: the double nearest to 7/10. *)
Definition float_0_7 : spec_float :=
  Eval vm_compute in SFdiv prec emax (raw 7) (raw 10).

End Float64.

(** ** Python strings and UTF-8 *)

Abbreviation str := (list Z) (only parsing).

Module PyStr.

Definition byte_val (b : byte) : Z := Z.of_N (Byte.to_N b).

Definition byte_of_Z (z : Z) : byte :=
  match Byte.of_N (Z.to_N z) with
  | Some b => b
  | None => x00
  end.

(** Payload of a continuation byte [10xxxxxx]. *)
Definition cont (b : byte) : option Z :=
  let n := byte_val b in
  if (128 <=? n) && (n <? 192) then Some (n - 128) else None.

(** Strict UTF-8 decoding, as the [utf-8] codec with [errors='strict']:
    overlong forms, surrogates and values above U+10FFFF are rejected. *)
Fixpoint utf8_decode (bs : list byte) : option str :=
  match bs with
  | [] => Some []
  | b0 :: r0 =>
      let n0 := byte_val b0 in
      if n0 <? 128 then
        match utf8_decode r0 with Some s => Some (n0 :: s) | None => None end
      else if n0 <? 194 then None
      else if n0 <? 224 then
        match r0 with
        | b1 :: r1 =>
            match cont b1, utf8_decode r1 with
            | Some c1, Some s => Some (((n0 - 192) * 64 + c1) :: s)
            | _, _ => None
            end
        | _ => None
        end
      else if n0 <? 240 then
        match r0 with
        | b1 :: b2 :: r2 =>
            match cont b1, cont b2, utf8_decode r2 with
            | Some c1, Some c2, Some s =>
                let cp := (n0 - 224) * 4096 + c1 * 64 + c2 in
                if (cp <? 2048) || ((55296 <=? cp) && (cp <? 57344))
                then None else Some (cp :: s)
            | _, _, _ => None
            end
        | _ => None
        end
      else if n0 <? 245 then
        match r0 with
        | b1 :: b2 :: b3 :: r3 =>
            match cont b1, cont b2, cont b3, utf8_decode r3 with
            | Some c1, Some c2, Some c3, Some s =>
                let cp := (n0 - 240) * 262144 + c1 * 4096 + c2 * 64 + c3 in
                if (cp <? 65536) || (1114111 <? cp)
                then None else Some (cp :: s)
            | _, _, _, _ => None
            end
        | _ => None
        end
      else None
  end.

Definition encode_char (cp : Z) : option (list byte) :=
  if cp <? 0 then None
  else if cp <? 128 then Some [byte_of_Z cp]
  else if cp <? 2048 then
    Some [byte_of_Z (192 + cp / 64); byte_of_Z (128 + cp mod 64)]
  else if cp <? 65536 then
    if (55296 <=? cp) && (cp <? 57344) then None
    else Some [byte_of_Z (224 + cp / 4096);
               byte_of_Z (128 + (cp / 64) mod 64);
               byte_of_Z (128 + cp mod 64)]
  else if cp <? 1114112 then
    Some [byte_of_Z (240 + cp / 262144);
          byte_of_Z (128 + (cp / 4096) mod 64);
          byte_of_Z (128 + (cp / 64) mod 64);
          byte_of_Z (128 + cp mod 64)]
  else None.

(** [s.encode('utf-8')]; [None] is the [UnicodeEncodeError]. *)
Fixpoint utf8_encode (s : str) : option (list byte) :=
  match s with
  | [] => Some []
  | cp :: r =>
      match encode_char cp, utf8_encode r with
      | Some bs, Some rest => Some (bs ++ rest)
      | _, _ => None
      end
  end.

(** A string literal of this file, read as the UTF-8 text it is. *)
Definition lit (s : string) : str :=
  match utf8_decode (list_byte_of_string s) with
  | Some cps => cps
  | None => []
  end.

(** Newline translation of a text-mode read ([newline=None]):
    [\r\n] and a lone [\r] both become [\n]. *)
Fixpoint universal_newlines (s : str) : str :=
  match s with
  | [] => []
  | c :: r =>
      if c =? 13 then
        10 :: match r with
              | d :: r' => if d =? 10 then universal_newlines r'
                           else universal_newlines r
              | [] => []
              end
      else c :: universal_newlines r
  end.

(** [str.isspace] on one code point. *)
Definition isspace (c : Z) : bool :=
  ((9 <=? c) && (c <=? 13)) || ((28 <=? c) && (c <=? 32))
  || (c =? 133) || (c =? 160) || (c =? 5760)
  || ((8192 <=? c) && (c <=? 8202))
  || (c =? 8232) || (c =? 8233) || (c =? 8239) || (c =? 8287)
  || (c =? 12288).

Fixpoint lstrip (s : str) : str :=
  match s with
  | c :: r => if isspace c then lstrip r else s
  | [] => []
  end.

Definition rstrip (s : str) : str := rev (lstrip (rev s)).

(** [s.strip()] *)
Definition strip (s : str) : str := rstrip (lstrip s).

(** Truth value of a string: non-empty. *)
Definition truthy (s : str) : bool :=
  match s with [] => false | _ => true end.

(** [s.lower()], on the ASCII letters. The full Unicode mapping lowers no
    other code point to one of [.tx pdf], so the [endswith] tests of
    [load_text] are the same under both. *)
Definition lower_char (c : Z) : Z :=
  if (65 <=? c) && (c <=? 90) then c + 32 else c.

Definition lower (s : str) : str := map lower_char s.

Fixpoint startswith (s prefix : str) : bool :=
  match prefix, s with
  | [], _ => true
  | p :: prefix', c :: s' => (c =? p) && startswith s' prefix'
  | _ :: _, [] => false
  end.

(** [s.endswith(suffix)] *)
Definition endswith (s suffix : str) : bool :=
  startswith (rev s) (rev suffix).

(** [str(z)] for an [int]. *)
Definition str_of_int (z : Z) : str :=
  map (fun a => Z.of_N (N_of_ascii a))
      (list_ascii_of_string (NilZero.string_of_int (Z.to_int z))).

End PyStr.
Export PyStr.

(** ** Interpreter state, exceptions and the monad of the program *)

Inductive exn_class :=
| FileNotFoundError
| ValueError
| UnicodeDecodeError      (* a subclass of [ValueError]; told apart by its class *)
| UnicodeEncodeError
| IsADirectoryError
| OSError                 (* [PermissionError] and the other subclasses not named here *)
| KeyError
| OverflowError
| LibraryError.          (* any exception raised inside an external library *)

(** A raised exception: an [Exception] with its message, or the [SystemExit]
    of [sys.exit], which [except Exception] does not catch. *)
Inductive exn :=
| Raise (cls : exn_class) (msg : str)
| SystemExit (code : Z).

Inductive node :=
| File (content : list byte)
| Dir.

(** The file system. [objects] holds what exists, each object under its
    identity. [resolve] is the operating system's lookup of a path: the
    identity of the object the path names, or would name once created, so
    that two spellings of one path ([notes.txt] and [./notes.txt]) and two
    links to one file resolve alike. [refuses] is the exception with which
    [open(path, 'w')] fails for a cause other than the path naming a
    directory: a parent directory that does not exist, a permission, a name
    the system does not take. *)
Record file_system := FileSystem {
  objects : gmap (list Z) node;
  resolve : list Z -> list Z;
  refuses : list Z -> option (exn_class * list Z)
}.

(** [fs !! path]: the object the path names, if there is one. *)
#[global] Instance file_system_lookup : Lookup (list Z) node file_system :=
  fun path fs => objects fs !! resolve fs path.

(** [<[path := n]> fs]: the object the path names is replaced by [n], or
    created; every other path that resolves to it sees [n] from then on. *)
#[global] Instance file_system_insert : Insert (list Z) node file_system :=
  fun path n fs =>
    FileSystem (<[resolve fs path := n]> (objects fs)) (resolve fs) (refuses fs).

(** Calls into the [transformers] library, in the order they are made. *)
Inductive call :=
| TokenizerFromPretrained (name : str)
| ModelFromPretrained (name : str)
| TokenizerCall (text : str) (max_length : Z)
| Tokenize (text : str)
| Generate (max_length min_length num_beams : Z) (early_stopping : bool)
| Decode.

Record world := World {
  files : file_system;
  stdout : list (list Z);
  calls : list call
}.

Definition M (A : Type) : Type := world -> (exn + A) * world.

Definition ret {A} (a : A) : M A := fun w => (inr a, w).

Definition bind {A B} (c : M A) (k : A -> M B) : M B :=
  fun w => match c w with
           | (inr a, w') => k a w'
           | (inl e, w') => (inl e, w')
           end.

Definition raise {A} (e : exn) : M A := fun w => (inl e, w).

Notation "x <- c ;; k" := (bind c (fun x => k))
  (at level 100, c at next level, right associativity).
Notation "c ;; k" := (bind c (fun _ => k))
  (at level 100, right associativity).

(** [try: c  except Exception as e: h e] *)
Definition try_except {A} (c : M A) (h : str -> M A) : M A :=
  fun w => match c w with
           | (inl (Raise _ msg), w') => h msg w'
           | r => r
           end.

(** [print(s)] *)
Definition print (s : str) : M unit :=
  fun w => (inr tt, World (files w) (stdout w ++ [s]) (calls w)).

Definition log (c : call) : M unit :=
  fun w => (inr tt, World (files w) (stdout w) (calls w ++ [c])).

(** [sys.exit(code)] *)
Definition sys_exit {A} (code : Z) : M A := raise (SystemExit code).

(** [os.path.isfile(path)] *)
Definition isfile (w : world) (path : str) : bool :=
  match files w !! path with
  | Some (File _) => true
  | _ => false
  end.

(** [open(path, 'r', encoding='utf-8').read()] on an existing regular file:
    the bytes are decoded and newlines translated. The message of the
    decoding error is the codec's own, [decode_error]. *)
Definition read_text (decode_error : list byte -> str) (path : str) : M str :=
  fun w => match files w !! path with
           | Some (File bs) =>
               match utf8_decode bs with
               | Some s => (inr (universal_newlines s), w)
               | None => (inl (Raise UnicodeDecodeError (decode_error bs)), w)
               end
           | Some Dir => (inl (Raise IsADirectoryError path), w)
           | None => (inl (Raise FileNotFoundError path), w)
           end.

(** [with open(path, 'w', encoding='utf-8') as f: f.write(s)]. Opening
    raises on a directory and wherever the system refuses it, and then
    nothing is written. Otherwise it truncates or creates the file the path
    names, and writing encodes. The line separator is [\n] (POSIX), so the
    write does not translate newlines. *)
Definition write_text (path s : str) : M unit :=
  fun w => match files w !! path with
           | Some Dir => (inl (Raise IsADirectoryError path), w)
           | _ =>
               match refuses (files w) path with
               | Some (cls, msg) => (inl (Raise cls msg), w)
               | None =>
                   match utf8_encode s with
                   | Some bs =>
                       (inr tt,
                        World (<[path := File bs]> (files w)) (stdout w) (calls w))
                   | None =>
                       (inl (Raise UnicodeEncodeError []),
                        World (<[path := File []]> (files w)) (stdout w) (calls w))
                   end
               end
           end.

(** ** The program *)

(** [SUPPORTED_LANGS = {'en', 'ru', 'de'}] *)
Definition SUPPORTED_LANGS : gset (list Z) :=
  {[ lit "en"; lit "ru"; lit "de" ]}.

(** [LANG_MAP] *)
Definition LANG_MAP : gmap (list Z) (list Z) :=
  <[lit "en" := lit "english"]>
    (<[lit "ru" := lit "russian"]>
       (<[lit "de" := lit "german"]> ∅)).

Definition UNSUPPORTED_FORMAT : str := lit "Поддерживаются только .txt и .pdf файлы".
Definition EMPTY_TEXT : str := lit "Пустой текст".
Definition model_name : str := lit "csebuetnlp/mT5_multilingual_xlsum".

(** Lines 69-71 of [summarize_text], one definition per assignment.
    [None] is an arithmetic exception. *)
Definition target_len (input_len compression : Z) : option Z :=
  match Float64.int_true_divide (input_len * compression) 100 with
  | Some q =>
      match Float64.int_of_float q with
      | Some t => Some (Z.max 30 t)
      | None => None
      end
  | None => None
  end.

Definition max_len (target_len : Z) : Z := Z.min 512 target_len.

Definition min_len (max_len : Z) : option Z :=
  match Float64.float_of_int max_len with
  | Some f =>
      match Float64.int_of_float (Float64.float_mul f Float64.float_0_7) with
      | Some t => Some (Z.max 20 t)
      | None => None
      end
  | None => None
  end.

(** The three assignments in sequence: [(target_len, max_len, min_len)]. *)
Definition length_bounds (input_len compression : Z) : option (Z * Z * Z) :=
  match target_len input_len compression with
  | Some t =>
      match min_len (max_len t) with
      | Some m => Some (t, max_len t, m)
      | None => None
      end
  | None => None
  end.

(** An arithmetic result, or the exception that replaces it. *)
Definition arith {A} (o : option A) : M A :=
  match o with
  | Some a => ret a
  | None => raise (Raise OverflowError [])
  end.

(** Result of a library call: its value, or the message of what it raised. *)
Definition library {A} (r : str + A) : M A :=
  match r with
  | inr a => ret a
  | inl msg => raise (Raise LibraryError msg)
  end.

(** The [choices] of [--language] and [--compression]. *)
Definition language_choices : list (list Z) :=
  [lit "auto"; lit "en"; lit "ru"; lit "de"].
Definition compression_choices : list Z := [20; 30; 50].

(** [sys.maxsize]: no [len] exceeds it. *)
Definition sys_maxsize : Z := 2 ^ 63 - 1.

(** The raw value of each flag, as [argparse] reads them off the command
    line: for each of the four flags the value it was last given, if any,
    that of [--compression] already read as an integer. *)
Record argv := Argv {
  raw_input : option (list Z);
  raw_language : option (list Z);
  raw_compression : option Z;
  raw_output : option (list Z)
}.

(** What [parser.parse_args()] does with [sys.argv], which it reads from
    left to right:
    - [Help usage]: it comes to [-h] or [--help] and prints the help text,
      whatever else the line holds; [usage] is that text, less its final
      newline;
    - [Options a]: it reads the line to the end, or up to a value that is
      outside its flag's [choices]; [a] holds the values read;
    - [Unusable]: it reports any other error of the line: an option it does
      not know, a stray argument, a flag without value, an ambiguous
      abbreviation, a [--compression] value that [int] does not read. *)
Inductive command_line :=
| Help (usage : list Z)
| Unusable
| Options (a : argv).

Coercion Options : argv >-> command_line.

Record args := Args {
  input : list Z;
  language : list Z;
  compression : Z;
  output : option (list Z)
}.

Section Program.

(** The libraries outside the repository. *)
Variables token encoding : Type.
Variable detect : str -> str + str.                      (* langdetect.detect *)
Variable pdf_pages : list byte -> str + list (option str).  (* pdfplumber *)
Variable decode_error : list byte -> str.
Variable tokenizer_from_pretrained : str -> str + unit.
Variable model_from_pretrained : str -> str + unit.
Variable tokenizer_call : str -> Z -> encoding.
Variable tokenize : str -> list token.
Variable generate : encoding -> Z -> Z -> str + list token.
Variable decode : list token -> str.

(** [pdfplumber.open(path)] and [page.extract_text()] of every page. *)
Definition pdfplumber_open (path : str) : M (list (option str)) :=
  fun w => match files w !! path with
           | Some (File bs) => library (pdf_pages bs) w
           | Some Dir => (inl (Raise IsADirectoryError path), w)
           | None => (inl (Raise FileNotFoundError path), w)
           end.

Definition load_text (file_path : str) : M str :=
  fun w =>
    if negb (isfile w file_path) then
      raise (Raise FileNotFoundError (lit "Файл не найден: " ++ file_path)) w
    else if endswith (lower file_path) (lit ".txt") then
      read_text decode_error file_path w
    else if endswith (lower file_path) (lit ".pdf") then
      (pages <- pdfplumber_open file_path ;;
       ret (fold_left (fun text page => text ++ default [] page) pages [])) w
    else raise (Raise ValueError UNSUPPORTED_FORMAT) w.

Definition detect_language (text : str) : M str :=
  let lang := match detect text with
              | inr l => l
              | inl _ => lit "en"
              end in
  if decide (lang ∈ SUPPORTED_LANGS) then ret lang
  else
    print (lit "⚠️ Обнаружен неподдерживаемый язык: " ++ lang
           ++ lit ". Используем английский как fallback.") ;;
    ret (lit "en").

Definition summarize_text (text lang : str) (compression : Z)
    (max_input_length : Z) : M str :=
  if negb (truthy (strip text)) then ret EMPTY_TEXT
  else
    log (TokenizerFromPretrained model_name) ;;
    library (tokenizer_from_pretrained model_name) ;;
    log (ModelFromPretrained model_name) ;;
    library (model_from_pretrained model_name) ;;
    log (TokenizerCall text max_input_length) ;;
    let inputs := tokenizer_call text max_input_length in
    log (Tokenize text) ;;
    let input_len := Z.of_nat (length (tokenize text)) in
    target <- arith (target_len input_len compression) ;;
    let maxl := max_len target in
    minl <- arith (min_len maxl) ;;
    log (Generate maxl minl 4 true) ;;
    outputs <- library (generate inputs maxl minl) ;;
    log Decode ;;
    ret (decode outputs).

(** [parser.parse_args()]. A request for help prints the help text on
    standard output and ends the process with status 0; a line that cannot
    be used, a missing [--input] and a value outside a flag's [choices] end
    it with status 2. *)
Definition parse_args (c : command_line) : M args :=
  match c with
  | Help usage => print usage ;; sys_exit 0
  | Unusable => sys_exit 2
  | Options a =>
      match raw_input a with
      | None => sys_exit 2
      | Some i =>
          let l := default (lit "auto") (raw_language a) in
          let c := default 30 (raw_compression a) in
          if negb (bool_decide (l ∈ language_choices)) then sys_exit 2
          else if negb (bool_decide (c ∈ compression_choices)) then sys_exit 2
          else ret (Args i l c (raw_output a))
      end
  end.

Definition banner : str := replicate 60 61.

Definition main (c : command_line) : M unit :=
  args <- parse_args c ;;
  text <- try_except (load_text (input args))
            (fun e => print (lit "❌ Ошибка загрузки файла: " ++ e) ;; sys_exit 1) ;;
  (if negb (truthy (strip text))
   then print (lit "❌ Файл пустой") ;; sys_exit 1
   else ret tt) ;;
  lang <- (if bool_decide (language args = lit "auto")
           then detect_language text
           else ret (language args)) ;;
  (if negb (bool_decide (lang ∈ SUPPORTED_LANGS))
   then print (lit "❌ Неподдерживаемый язык: " ++ lang) ;; sys_exit 1
   else ret tt) ;;
  name <- match LANG_MAP !! lang with
          | Some n => ret n
          | None => raise (Raise KeyError lang)
          end ;;
  print (lit "🔤 Обнаружен язык: " ++ name ++ lit " (" ++ lang ++ lit ")") ;;
  print (lit "📉 Уровень сжатия: " ++ str_of_int (compression args) ++ lit "%") ;;
  print (lit "⏳ Генерация резюме... (может занять 1–2 минуты на CPU)") ;;
  summary <- summarize_text text lang (compression args) 1024 ;;
  print ([10] ++ banner) ;;
  print (lit "📝 РЕЗЮМЕ:") ;;
  print banner ;;
  print summary ;;
  match output args with
  | Some path =>
      if truthy path then
        write_text path summary ;;
        print ([10] ++ lit "✅ Результат сохранён в: " ++ path)
      else ret tt
  | None => ret tt
  end.

(** Exit status of the process that runs [main]: 0 when it returns, the
    code of a [SystemExit], 1 for any other uncaught exception. *)
Definition run (c : command_line) (w : world) : Z * world :=
  match main c w with
  | (inr _, w') => (0, w')
  | (inl (SystemExit code), w') => (code, w')
  | (inl (Raise _ _), w') => (1, w')
  end.

End Program.

(** ** The length arithmetic as the specification words it *)

(** [round(p / q)] for [q > 0]: the nearest integer, ties to even. *)
Definition round_half_even (p q : Z) : Z :=
  let f := p / q in
  let r2 := 2 * (p mod q) in
  if r2 <? q then f
  else if q <? r2 then f + 1
  else if Z.even f then f else f + 1.

Definition spec_length_bounds (input_token_count compression : Z) : Z * Z * Z :=
  let target_len :=
    Z.max 30 (round_half_even (input_token_count * compression) 100) in
  let max_len := Z.min 512 target_len in
  let min_len := Z.max 20 (round_half_even (max_len * 7) 10) in
  (target_len, max_len, min_len).

(** The values of [max_len] in [30, 512] at which the double product
    [max_len * 0.7] rounds to just below the integer [7 * max_len / 10]. *)
Definition rounds_below : list Z := [90; 170; 180; 330; 340; 350; 360].

(** [int(max_len * 0.7)] in closed form on [30, 512]. *)
Definition trunc_0_7 (m : Z) : Z :=
  7 * m / 10 - (if bool_decide (m ∈ rounds_below) then 1 else 0).

(** Executable checks run over the whole range of [max_len]. *)
Definition max_len_range : list Z := map Z.of_nat (seq 30 483).

Definition min_len_agrees (m : Z) : bool :=
  match Float64.float_of_int m with
  | Some f =>
      match Float64.int_of_float (Float64.float_mul f Float64.float_0_7) with
      | Some t => (t =? trunc_0_7 m) && (21 <=? t) && (t <=? m)
      | None => false
      end
  | None => false
  end.

(** ** A concrete environment, for running the program *)

Module Demo.

Definition detect_fr (text : list Z) : list Z + list Z := inr (lit "fr").
Definition no_pages (bs : list byte) : list Z + list (option (list Z)) := inr [].
Definition codec_message (bs : list byte) : list Z := lit "invalid start byte".
Definition loaded (name : list Z) : list Z + unit := inr tt.

(** One token per code point; the model answers every request with [X]. *)
Definition code_points (text : list Z) : list Z := text.
Definition truncated (text : list Z) (max_length : Z) : list Z :=
  firstn (Z.to_nat max_length) text.
Definition answer_X (inputs : list Z) (max_length min_length : Z)
  : list Z + list Z := inr (lit "X").
Definition same (tokens : list Z) : list Z := tokens.

Definition sample : list byte :=
  list_byte_of_string
    "Artificial intelligence is a wonderful field. It enables machines to learn from data.".
Definition text : list Z :=
  lit "Artificial intelligence is a wonderful field. It enables machines to learn from data.".
Definition crlf_bytes : list byte := [x61; x0d; x0a; x62].

(** Paths are relative to one directory without links: a path names the
    same object with and without leading [./]. The directory [nodir] does
    not exist, so nothing can be created under it. *)
Fixpoint same_directory (path : list Z) : list Z :=
  match path with
  | 46 :: 47 :: rest => same_directory rest
  | _ => path
  end.

Definition no_such_directory (path : list Z) : option (exn_class * list Z) :=
  if startswith (same_directory path) (lit "nodir/")
  then Some (FileNotFoundError, lit "[Errno 2] No such file or directory")
  else None.

Definition disk : world :=
  World (FileSystem
           (<[lit "notes.TXT" := File sample]>
              (<[lit "dos.txt" := File crlf_bytes]>
                 (<[lit "blank.txt" := File [x20; x0a]]> ∅)))
           same_directory no_such_directory)
        [] [].

Definition load_demo : list Z -> M (list Z) := load_text no_pages codec_message.

Definition summarize_demo : list Z -> list Z -> Z -> Z -> M (list Z) :=
  summarize_text Z (list Z) loaded loaded truncated code_points answer_X same.

Definition run_demo : command_line -> world -> Z * world :=
  run Z (list Z) detect_fr no_pages codec_message loaded loaded truncated
    code_points answer_X same.

End Demo.

(** ** The lines [main] and [detect_language] print *)

(** Line 44. *)
Definition warning_line (lang : list Z) : list Z :=
  lit "⚠️ Обнаружен неподдерживаемый язык: " ++ lang
  ++ lit ". Используем английский как fallback.".

(** Lines 119, 120 and 123. *)
Definition status_lines (lang name : list Z) (compression : Z) : list (list Z) :=
  [lit "🔤 Обнаружен язык: " ++ name ++ lit " (" ++ lang ++ lit ")";
   lit "📉 Уровень сжатия: " ++ str_of_int compression ++ lit "%";
   lit "⏳ Генерация резюме... (может занять 1–2 минуты на CPU)"].

(** Lines 127 to 130. *)
Definition display_lines (summary : list Z) : list (list Z) :=
  [[10] ++ banner; lit "📝 РЕЗЮМЕ:"; banner; summary].

(** Line 136. *)
Definition confirmation_line (path : list Z) : list Z :=
  [10] ++ lit "✅ Результат сохранён в: " ++ path.

(** The calls [summarize_text] makes before it generates. *)
Definition preparation (text : list Z) (max_input_length : Z) : list call :=
  [TokenizerFromPretrained model_name; ModelFromPretrained model_name;
   TokenizerCall text max_input_length; Tokenize text].

(** ** A second environment: no network, and a disk of awkward files *)

Module Offline.

Definition no_network (name : list Z) : list Z + unit :=
  inl (lit "checkpoint unavailable").
Definition detect_raises (text : list Z) : list Z + list Z :=
  inl (lit "No features in text.").

(** A scanned document: three pages, none with extractable text. *)
Definition scanned (bs : list byte) : list Z + list (option (list Z)) :=
  inr [None; Some []; None].
Definition two_pages (bs : list byte) : list Z + list (option (list Z)) :=
  inr [Some (lit "ab"); None; Some (lit "c")].

(** The file [report.txt] exists and may be read, not written. *)
Definition read_only (path : list Z) : option (exn_class * list Z) :=
  if bool_decide (Demo.same_directory path = lit "report.txt")
  then Some (OSError, lit "[Errno 13] Permission denied")
  else None.

Definition disk : world :=
  World (FileSystem
           (<[lit "scan.PDF" := File [x25; x50; x44; x46]]>
              (<[lit "notes.txt" := File Demo.sample]>
                 (<[lit "data.docx" := File [x50; x4b]]>
                    (<[lit "latin1.txt" := File [x63; xe9]]>
                       (<[lit "report.txt" := File [x6f; x6c; x64]]>
                          (<[lit "folder" := Dir]> ∅))))))
           Demo.same_directory read_only)
        [lit "earlier output"] [].

Definition run_offline : command_line -> world -> Z * world :=
  run Z (list Z) Demo.detect_fr scanned Demo.codec_message no_network
    Demo.loaded Demo.truncated Demo.code_points Demo.answer_X Demo.same.

Definition run_online : command_line -> world -> Z * world :=
  run Z (list Z) detect_raises two_pages Demo.codec_message Demo.loaded
    Demo.loaded Demo.truncated Demo.code_points Demo.answer_X Demo.same.

End Offline.

(** ** Facts on binary64 rounding *)

Module Float64Facts.
Import Float64.

Lemma digits2_pos_bounds (p : positive) :
2 ^ (Z.pos (digits2_pos p) - 1) <= Z.pos p < 2 ^ Z.pos (digits2_pos p).
Proof.
induction p as [p IH | p IH |]; cbn [digits2_pos].
- rewrite Pos2Z.inj_succ, Z.pow_succ_r by lia.
  replace (Z.succ (Z.pos (digits2_pos p)) - 1) with (Z.succ (Z.pos (digits2_pos p) - 1)) by lia.
  rewrite Z.pow_succ_r by lia. lia.
- rewrite Pos2Z.inj_succ, Z.pow_succ_r by lia.
  replace (Z.succ (Z.pos (digits2_pos p)) - 1) with (Z.succ (Z.pos (digits2_pos p) - 1)) by lia.
  rewrite Z.pow_succ_r by lia. lia.
- cbn. lia.
Qed.

Lemma shr_1_m (mrs : shr_record) :
0 <= shr_m mrs -> shr_m (shr_1 mrs) = shr_m mrs / 2.
Proof.
destruct mrs as [m r s]; cbn [shr_m]; intros Hm.
destruct m as [| [p | p |] | p]; cbn [shr_1 shr_m].
- reflexivity.
- rewrite Pos2Z.inj_xI. apply Z.div_unique with (r := 1); lia.
- rewrite Pos2Z.inj_xO. apply Z.div_unique with (r := 0); lia.
- reflexivity.
- lia.
Qed.

Lemma iter_pos_shr_1_m (p : positive) : forall mrs : shr_record,
0 <= shr_m mrs ->
shr_m (SpecFloat.iter_pos shr_1 p mrs) = shr_m mrs / 2 ^ Z.pos p.
Proof.
assert (Hstep : forall mrs, 0 <= shr_m mrs -> 0 <= shr_m (shr_1 mrs)).
{ intros mrs H. rewrite shr_1_m by exact H. apply Z.div_pos; lia. }
induction p as [p IH | p IH |]; intros mrs Hm; cbn [SpecFloat.iter_pos].
- rewrite IH, IH, shr_1_m by (try rewrite IH; try apply Z.div_pos; auto; lia).
  rewrite !Z.div_div by lia.
  f_equal. rewrite Pos2Z.inj_xI.
  replace (2 * Z.pos p + 1) with (1 + Z.pos p + Z.pos p) by lia.
  rewrite !Z.pow_add_r by lia. rewrite Z.pow_1_r. ring.
- rewrite IH, IH by (try rewrite IH; try apply Z.div_pos; auto; lia).
  rewrite !Z.div_div by lia. f_equal.
  rewrite Pos2Z.inj_xO, <- Z.pow_add_r by lia. f_equal. lia.
- rewrite shr_1_m by exact Hm. reflexivity.
Qed.

Lemma shr_m_of_loc (m : Z) (l : location) : shr_m (shr_record_of_loc m l) = m.
Proof. destruct l as [| []]; reflexivity. Qed.

Lemma shr_spec (mrs : shr_record) (e n : Z) :
0 <= shr_m mrs ->
snd (shr mrs e n) = e + Z.max 0 n /\
shr_m (fst (shr mrs e n)) = shr_m mrs / 2 ^ Z.max 0 n.
Proof.
intros Hm. destruct n as [| p | p]; cbn [shr fst snd].
- rewrite Z.max_id, Z.add_0_r, Z.pow_0_r, Z.div_1_r. auto.
- rewrite Z.max_r by lia. split; [reflexivity | apply iter_pos_shr_1_m; exact Hm].
- rewrite Z.max_l by lia. rewrite Z.add_0_r, Z.pow_0_r, Z.div_1_r. auto.
Qed.

Lemma round_nearest_even_cases (m : Z) (l : location) :
round_nearest_even m l = m \/ round_nearest_even m l = m + 1.
Proof.
destruct l as [| []]; cbn [round_nearest_even]; auto.
destruct (Z.even m); auto.
Qed.

Lemma Zdigits2_eq (m d : Z) :
2 ^ (d - 1) <= m < 2 ^ d -> 0 < d -> Zdigits2 m = d.
Proof.
intros [Hlo Hhi] Hd.
assert (Hm : 0 < m) by (pose proof (Z.pow_pos_nonneg 2 (d - 1)); lia).
destruct m as [| p | p]; try lia. cbn [Zdigits2].
pose proof (digits2_pos_bounds p) as [Hlo' Hhi'].
set (d' := Z.pos (digits2_pos p)) in *.
destruct (Z.lt_trichotomy d d') as [Hlt | [Heq | Hgt]]; [| exact (eq_sym Heq) |].
- pose proof (Z.pow_le_mono_r 2 d (d' - 1)). lia.
- pose proof (Z.pow_le_mono_r 2 d' (d - 1)). lia.
Qed.

Lemma Zdigits2_bounds (m : Z) :
0 < m -> 0 < Zdigits2 m /\ 2 ^ (Zdigits2 m - 1) <= m < 2 ^ Zdigits2 m.
Proof.
intros Hm. destruct m as [| p | p]; try lia. cbn [Zdigits2].
split; [lia | apply digits2_pos_bounds].
Qed.

Lemma pow2_split (a b : Z) : 0 <= a -> 0 <= b -> 2 ^ (a + b) = 2 ^ a * 2 ^ b.
Proof. intros. apply Z.pow_add_r; assumption. Qed.

Lemma binary_round_aux_normal (mx ex : Z) (lx : location) :
2 ^ 52 <= mx -> -1074 <= ex -> ex + (Zdigits2 mx - 53) + 1 <= 971 ->
exists (m : positive) (e delta : Z),
  binary_round_aux prec emax false mx ex lx = S754_finite false m e /\
  0 <= delta <= 1 /\ ex + (Zdigits2 mx - 53) <= e /\
  Z.pos m * 2 ^ (e - ex) =
    (mx / 2 ^ (Zdigits2 mx - 53) + delta) * 2 ^ (Zdigits2 mx - 53).
Proof.
intros Hmx Hex Hfin.
destruct (Zdigits2_bounds mx) as (Hd0 & Hlo & Hhi); [lia |].
set (dx := Zdigits2 mx) in *. set (k := dx - 53) in *.
assert (Hk : 0 <= k).
{ assert (52 < dx); [| lia]. apply (Z.pow_lt_mono_r_iff 2); lia. }
assert (HK : 0 < 2 ^ k) by (apply Z.pow_pos_nonneg; lia).
assert (Hlo' : 2 ^ 52 * 2 ^ k <= mx).
{ rewrite <- pow2_split by lia. replace (52 + k) with (dx - 1) by lia. exact Hlo. }
assert (Hhi' : mx < 2 ^ 53 * 2 ^ k).
{ rewrite <- pow2_split by lia. replace (53 + k) with dx by lia. exact Hhi. }
set (m1' := mx / 2 ^ k).
assert (Hm1' : 2 ^ 52 <= m1' < 2 ^ 53).
{ split; [apply Z.div_le_lower_bound | apply Z.div_lt_upper_bound]; lia. }
unfold binary_round_aux, shr_fexp. fold dx.
assert (Hn1 : fexp prec emax (dx + ex) - ex = k)
  by (unfold fexp, emin, prec, emax; lia).
rewrite Hn1.
destruct (shr_spec (shr_record_of_loc mx lx) ex k) as [He1 Hm1]; [rewrite shr_m_of_loc; lia |].
destruct (shr (shr_record_of_loc mx lx) ex k) as [mrs1 e1]; cbn [fst snd] in He1, Hm1.
rewrite shr_m_of_loc, Z.max_r in Hm1 by lia. rewrite Z.max_r in He1 by lia.
fold m1' in Hm1. rewrite Hm1.
set (m1 := round_nearest_even m1' (loc_of_shr_record mrs1)).
assert (Hm1c : m1 = m1' \/ m1 = m1' + 1) by apply round_nearest_even_cases.
destruct (Z.eq_dec m1 (2 ^ 53)) as [Htop | Hntop].
- (* the mantissa overflowed to 2^53: one more shift *)
  assert (Hdig : Zdigits2 m1 = 54) by (apply Zdigits2_eq; rewrite ?Htop; cbn; lia).
  rewrite Hdig.
  assert (Hn2 : fexp prec emax (54 + e1) - e1 = 1)
    by (unfold fexp, emin, prec, emax; lia).
  rewrite Hn2.
  destruct (shr_spec (shr_record_of_loc m1 loc_Exact) e1 1) as [He2 Hm2]; [rewrite shr_m_of_loc; lia |].
  destruct (shr (shr_record_of_loc m1 loc_Exact) e1 1) as [mrs2 e2]; cbn [fst snd] in He2, Hm2.
  rewrite shr_m_of_loc, Htop in Hm2. change (2 ^ 53 / 2 ^ Z.max 0 1) with (2 ^ 52) in Hm2.
  change (Z.max 0 1) with 1 in He2.
  rewrite Hm2. change (2 ^ 52) with (Z.pos 4503599627370496).
  assert (Hle : (e2 <=? emax - prec) = true) by (apply Z.leb_le; unfold emax, prec; lia).
  rewrite Hle. exists 4503599627370496%positive, e2, 1.
  split; [reflexivity |]. split; [lia |]. split; [lia |].
  assert (Hd : m1' + 1 = 2 ^ 53) by lia. rewrite Hd.
  replace (e2 - ex) with (1 + k) by lia. rewrite pow2_split by lia.
  change (2 ^ 53) with (Z.pos 4503599627370496 * 2 ^ 1). ring.
- assert (Hdig : Zdigits2 m1 = 53) by (apply Zdigits2_eq; cbn; lia).
  rewrite Hdig.
  assert (Hn2 : fexp prec emax (53 + e1) - e1 = 0)
    by (unfold fexp, emin, prec, emax; lia).
  rewrite Hn2. cbn [shr].
  rewrite shr_m_of_loc.
  assert (Hpos : 0 < m1) by lia.
  destruct m1 as [| pm | pm] eqn:Em1; try lia.
  assert (Hle : (e1 <=? emax - prec) = true) by (apply Z.leb_le; unfold emax, prec; lia).
  rewrite Hle. exists pm, e1, (Z.pos pm - m1').
  split; [reflexivity |]. split; [lia |]. split; [lia |].
  replace (e1 - ex) with k by lia. f_equal. lia.
Qed.

Lemma SFdiv_100_shape (a : Z) :
0 < a < 2 ^ 70 ->
let s := Z.max 0 (60 - Zdigits2 a) in
let q := a * 2 ^ s / 100 in
2 ^ 52 <= q /\
exists (m : positive) (e delta : Z),
  SFdiv prec emax (raw a) (raw 100) = S754_finite false m e /\
  0 <= delta <= 1 /\ - s <= e /\
  Z.pos m * 2 ^ (e + s) =
    (q / 2 ^ (Zdigits2 q - 53) + delta) * 2 ^ (Zdigits2 q - 53).
Proof.
intros [Ha0 Ha] s q.
destruct (Zdigits2_bounds a Ha0) as (Hd0 & Hlo & Hhi).
set (d := Zdigits2 a) in *.
assert (Ed : Zdigits2 a = d) by reflexivity.
assert (Es : s = Z.max 0 (60 - d)) by reflexivity.
clearbody s d.
assert (Hd70 : d <= 70).
{ assert (d - 1 < 70); [| lia]. apply (Z.pow_lt_mono_r_iff 2); lia. }
assert (Hs : 0 <= s) by lia.
assert (HS : 0 < 2 ^ s) by (apply Z.pow_pos_nonneg; lia).
assert (Hnum : 2 ^ 59 <= a * 2 ^ s).
{ destruct (Z.le_gt_cases d 60) as [Hle | Hgt].
  - replace 59 with (d - 1 + s) by lia.
    rewrite pow2_split by lia. apply Z.mul_le_mono_nonneg_r; lia.
  - replace s with 0 by lia. rewrite Z.pow_0_r, Z.mul_1_r.
    pose proof (Z.pow_le_mono_r 2 59 (d - 1)). lia. }
assert (Hnum' : a * 2 ^ s < 2 ^ 70).
{ destruct (Z.le_gt_cases d 60) as [Hle | Hgt].
  - assert (a * 2 ^ s < 2 ^ d * 2 ^ s) by (apply Z.mul_lt_mono_pos_r; lia).
    rewrite <- pow2_split in H by lia. replace (d + s) with 60 in H by lia.
    pose proof (Z.pow_le_mono_r 2 60 70). lia.
  - replace s with 0 by lia. rewrite Z.pow_0_r, Z.mul_1_r. exact Ha. }
assert (Hq : 2 ^ 52 <= q).
{ unfold q. apply Z.div_le_lower_bound; [lia |].
  change (100 * 2 ^ 52) with 450359962737049600.
  change (2 ^ 59) with 576460752303423488 in Hnum. lia. }
split; [exact Hq |].
assert (Hq' : q < 2 ^ 70).
{ unfold q. apply Z.div_lt_upper_bound; [lia | clear - Hnum'; lia]. }
destruct (Zdigits2_bounds q) as (Hdq0 & Hqlo & Hqhi); [lia |].
assert (Hdq : Zdigits2 q <= 70).
{ assert (Zdigits2 q - 1 < 70); [| lia]. apply (Z.pow_lt_mono_r_iff 2); lia. }
destruct (binary_round_aux_normal q (- s)
            (new_location 100 (a * 2 ^ s mod 100)))
  as (m & e & delta & Hres & Hdelta & He & Hval); [exact Hq | lia | lia |].
assert (Hk : 0 <= Zdigits2 q - 53).
{ assert (52 < Zdigits2 q); [| lia]. apply (Z.pow_lt_mono_r_iff 2); lia. }
exists m, e, delta. split; [| split; [exact Hdelta | split; [lia |]]].
- destruct a as [| pa | pa]; try lia.
  cbn [raw SFdiv xorb]. unfold SFdiv_core_binary. rewrite Ed.
  change (Zdigits2 100) with 7.
  assert (He' : Z.min (fexp prec emax (d + 0 - (7 + 0))) (0 - 0) = - s)
    by (unfold fexp, emin, prec, emax; lia).
  rewrite He'. replace (0 - 0 - - s) with s by lia.
  assert (Hm' : match s with
                | 0 => Z.pos pa
                | Z.pos _ => Z.shiftl (Z.pos pa) s
                | Z.neg _ => 0
                end = Z.pos pa * 2 ^ s).
  { destruct s as [| ps | ps]; [rewrite Z.pow_0_r; lia | | lia].
    apply Z.shiftl_mul_pow2. lia. }
  rewrite Hm'.
  pose proof (Z.div_eucl_eq (Z.pos pa * 2 ^ s) 100) as Heucl.
  unfold q, Z.div, Z.modulo in Hres.
  destruct (Z.div_eucl (Z.pos pa * 2 ^ s) 100) as [q0 r0].
  exact Hres.
- replace (e + s) with (e - - s) by lia. exact Hval.
Qed.

Lemma int_of_float_scaled (m : positive) (e s V : Z) :
0 <= s -> - s <= e -> Z.pos m * 2 ^ (e + s) = V ->
int_of_float (S754_finite false m e) = Some (V / 2 ^ s).
Proof.
intros Hs He HV. cbn [int_of_float]. f_equal. subst V.
destruct (Z.leb_spec 0 e) as [Hpos | Hneg].
- rewrite pow2_split, Z.mul_assoc by lia.
  rewrite Z.div_mul; [reflexivity |]. apply Z.pow_nonzero; lia.
- replace (2 ^ s) with (2 ^ (- e) * 2 ^ (e + s))
    by (rewrite <- pow2_split by lia; f_equal; lia).
  rewrite Z.div_mul_cancel_r; [reflexivity | |]; apply Z.pow_nonzero; lia.
Qed.

Lemma truediv_100_exact (a : Z) :
0 <= a < 2 ^ 52 ->
int_of_float (SFdiv prec emax (raw a) (raw 100)) = Some (a / 100).
Proof.
intros [Ha0 Ha].
destruct (Z.eq_dec a 0) as [-> | Hne]; [reflexivity |].
destruct (SFdiv_100_shape a) as (Hq & m & e & delta & Hres & Hdelta & He & Hval).
{ pose proof (Z.pow_le_mono_r 2 52 70). lia. }
destruct (Zdigits2_bounds a) as (Hd0 & Hlo & Hhi); [lia |].
set (d := Zdigits2 a) in *.
set (s := Z.max 0 (60 - d)) in *.
set (q := a * 2 ^ s / 100) in *.
set (k1 := Zdigits2 q - 53) in *.
assert (Hd : d <= 52).
{ assert (d - 1 < 52); [| lia]. apply (Z.pow_lt_mono_r_iff 2); lia. }
assert (Es : s = 60 - d) by (unfold s; lia).
assert (Hs8 : 8 <= s) by lia.
assert (HS : 2 ^ 8 <= 2 ^ s) by (apply Z.pow_le_mono_r; lia).
assert (Hnum : a * 2 ^ s < 2 ^ 60).
{ replace 60 with (d + s) by lia. rewrite pow2_split by lia.
  apply Z.mul_lt_mono_pos_r; lia. }
assert (Hq54 : q < 2 ^ 54).
{ unfold q. apply Z.div_lt_upper_bound; [lia |].
  change (2 ^ 60) with 1152921504606846976 in Hnum.
  change (100 * 2 ^ 54) with 1801439850948198400. clear - Hnum. lia. }
destruct (Zdigits2_bounds q) as (Hdq0 & Hqlo & Hqhi); [lia |].
assert (Hk1 : 0 <= k1 <= 1).
{ unfold k1. split.
  - assert (52 < Zdigits2 q); [| lia]. apply (Z.pow_lt_mono_r_iff 2); lia.
  - assert (Zdigits2 q - 1 < 54); [| lia]. apply (Z.pow_lt_mono_r_iff 2); lia. }
rewrite Hres.
rewrite (int_of_float_scaled m e s _ ltac:(lia) He Hval). f_equal.
(* the rounded mantissa, rescaled, stays within the same multiple of 2^s *)
pose proof (Z.mul_div_le (a * 2 ^ s) 100 ltac:(lia)) as Hq1.
pose proof (Z.mul_succ_div_gt (a * 2 ^ s) 100 ltac:(lia)) as Hq2.
fold q in Hq1, Hq2.
pose proof (Z.div_mod a 100 ltac:(lia)) as Hdm.
pose proof (Z.mod_pos_bound a 100 ltac:(lia)) as Hr.
set (k := a / 100) in *. set (r := a mod 100) in *.
change (2 ^ 8) with 256 in HS.
set (S := 2 ^ s) in *.
assert (HaS : a * S = 100 * (k * S) + r * S) by (rewrite Hdm; ring).
assert (HrS : 0 <= r * S <= 99 * S) by nia.
assert (HqkS : k * S <= q) by lia.
assert (HqS : q + 2 < k * S + S) by lia.
symmetry. apply Z.div_unique with (r := (q / 2 ^ k1 + delta) * 2 ^ k1 - S * k); [| ring].
left.
assert (Hk1c : k1 = 0 \/ k1 = 1) by lia.
destruct Hk1c as [-> | ->].
- rewrite Z.pow_0_r, Z.div_1_r. lia.
- rewrite Z.pow_1_r.
  pose proof (Z.mul_div_le q 2 ltac:(lia)) as Hh1.
  pose proof (Z.mul_succ_div_gt q 2 ltac:(lia)) as Hh2.
  assert (HS2 : S = 2 * 2 ^ (s - 1)).
  { unfold S. replace s with (1 + (s - 1)) at 1 by lia.
    rewrite pow2_split by lia. reflexivity. }
  set (S2 := 2 ^ (s - 1)) in *.
  assert (k * S2 <= q / 2) by (apply Z.div_le_lower_bound; lia).
  lia.
Qed.

Lemma truediv_100_large (a : Z) :
2 ^ 52 <= a < 2 ^ 70 ->
exists t : Z,
  int_of_float (SFdiv prec emax (raw a) (raw 100)) = Some t /\ 2 ^ 45 <= t.
Proof.
intros [Hlo52 Ha].
destruct (SFdiv_100_shape a) as (Hq & m & e & delta & Hres & Hdelta & He & Hval); [lia |].
destruct (Zdigits2_bounds a) as (Hd0 & Hlo & Hhi); [lia |].
set (d := Zdigits2 a) in *.
set (s := Z.max 0 (60 - d)) in *.
set (q := a * 2 ^ s / 100) in *.
assert (Hd : 53 <= d).
{ assert (52 < d); [| lia]. apply (Z.pow_lt_mono_r_iff 2); lia. }
assert (Hs : 0 <= s <= 7) by (unfold s; lia).
destruct (Zdigits2_bounds q) as (Hdq0 & Hqlo & Hqhi); [lia |].
set (k1 := Zdigits2 q - 53) in *.
assert (Hk1 : 0 <= k1).
{ unfold k1. assert (52 < Zdigits2 q); [| lia]. apply (Z.pow_lt_mono_r_iff 2); lia. }
rewrite Hres, (int_of_float_scaled m e s _ ltac:(lia) He Hval).
eexists; split; [reflexivity |].
assert (HK : 0 < 2 ^ k1) by (apply Z.pow_pos_nonneg; lia).
assert (Hq1 : 2 ^ 52 <= q / 2 ^ k1).
{ apply Z.div_le_lower_bound; [lia |].
  rewrite Z.mul_comm, <- pow2_split by lia.
  replace (52 + k1) with (Zdigits2 q - 1) by (unfold k1; lia). exact Hqlo. }
assert (HV : 2 ^ 52 <= (q / 2 ^ k1 + delta) * 2 ^ k1) by nia.
assert (HS : 2 ^ s <= 2 ^ 7) by (apply Z.pow_le_mono_r; lia).
assert (HS0 : 0 < 2 ^ s) by (apply Z.pow_pos_nonneg; lia).
apply Z.div_le_lower_bound; [lia |].
change (2 ^ 45) with 35184372088832. change (2 ^ 52) with 4503599627370496 in HV.
change (2 ^ 7) with 128 in HS. clear - HV HS HS0. nia.
Qed.

End Float64Facts.

(** ** Facts on the length arithmetic *)

Module LengthFacts.
Import Float64 Float64Facts.

(** The literal is within half a unit in the last place of 7/10. *)
Example float_0_7_nearest :
  float_0_7 = S754_finite false 6305039478318694 (-53) /\
  Z.abs (10 * 6305039478318694 - 7 * 2 ^ 53) <= 5.
Proof. split; [reflexivity | vm_compute; discriminate]. Qed.

Example target_len_199_20 : target_len 199 20 = Some 39.
Proof. vm_compute. reflexivity. Qed.

Example min_len_30 : min_len 30 = Some 21.
Proof. vm_compute. reflexivity. Qed.

(** [90 * 0.7] is the double just below 63. *)
Example min_len_90 : min_len 90 = Some 62.
Proof. vm_compute. reflexivity. Qed.

Lemma finite_is_some (f : spec_float) (t : Z) :
  int_of_float f = Some t -> finite f = Some f.
Proof. destruct f; cbn; congruence. Qed.

(** [int(a / 100)] is the integer quotient as long as [a] stays below 2^52,
    and is large beyond. *)
Lemma quotient_truncated (a : Z) :
  0 <= a < 2 ^ 70 ->
  exists (q : spec_float) (t : Z),
    int_true_divide a 100 = Some q /\ int_of_float q = Some t /\
    (a < 2 ^ 52 -> t = a / 100) /\ (2 ^ 52 <= a -> 2 ^ 45 <= t).
Proof.
  intros [Ha0 Ha]. unfold int_true_divide.
  destruct (Z.lt_ge_cases a (2 ^ 52)) as [Hsmall | Hlarge].
  - pose proof (truediv_100_exact a (conj Ha0 Hsmall)) as Hex.
    exists (SFdiv prec emax (raw a) (raw 100)), (a / 100).
    split; [exact (finite_is_some _ _ Hex) |]. split; [exact Hex |].
    split; [reflexivity | lia].
  - destruct (truediv_100_large a (conj Hlarge Ha)) as (t & Ht & Hbig).
    exists (SFdiv prec emax (raw a) (raw 100)), t.
    split; [exact (finite_is_some _ _ Ht) |]. split; [exact Ht |].
    split; [lia | intros _; exact Hbig].
Qed.

Lemma target_len_total (n c : Z) :
  0 <= n * c < 2 ^ 70 ->
  exists t : Z,
    target_len n c = Some t /\ 30 <= t /\
    (n * c < 2 ^ 52 -> t = Z.max 30 (n * c / 100)) /\
    max_len t = Z.min 512 (Z.max 30 (n * c / 100)).
Proof.
  intros Ha.
  destruct (quotient_truncated (n * c) Ha) as (q & t & Hq & Ht & Hsmall & Hlarge).
  exists (Z.max 30 t). unfold target_len, max_len. rewrite Hq, Ht.
  split; [reflexivity |]. split; [lia |]. split.
  - intros H. rewrite (Hsmall H). reflexivity.
  - destruct (Z.lt_ge_cases (n * c) (2 ^ 52)) as [H | H].
    + rewrite (Hsmall H). reflexivity.
    + specialize (Hlarge H).
      assert (2 ^ 45 <= n * c / 100).
      { apply Z.div_le_lower_bound; [lia |].
        change (100 * 2 ^ 45) with 3518437208883200.
        change (2 ^ 52) with 4503599627370496 in H. lia. }
      change (2 ^ 45) with 35184372088832 in *. lia.
Qed.

Lemma in_max_len_range (m : Z) : 30 <= m <= 512 -> In m max_len_range.
Proof.
  intros H. unfold max_len_range. apply in_map_iff.
  exists (Z.to_nat m). split; [lia |]. apply in_seq. lia.
Qed.

Lemma min_len_agrees_all : forallb min_len_agrees max_len_range = true.
Proof. vm_compute. reflexivity. Qed.

(** On the whole range of [max_len] the double product truncates to
    [trunc_0_7], which is at least 21. *)
Lemma min_len_table (m : Z) :
  30 <= m <= 512 ->
  exists f : spec_float,
    float_of_int m = Some f /\
    int_of_float (float_mul f float_0_7) = Some (trunc_0_7 m) /\
    21 <= trunc_0_7 m <= m /\
    min_len m = Some (trunc_0_7 m).
Proof.
  intros Hm.
  pose proof (proj1 (forallb_forall _ _) min_len_agrees_all m (in_max_len_range m Hm)) as Hc.
  unfold min_len_agrees in Hc. unfold min_len.
  destruct (float_of_int m) as [f |]; [| discriminate].
  destruct (int_of_float (float_mul f float_0_7)) as [t |] eqn:Ht; [| discriminate].
  apply andb_prop in Hc as [Hc Hle]. apply andb_prop in Hc as [Heq H21].
  apply Z.eqb_eq in Heq. apply Z.leb_le in H21, Hle. subst t.
  exists f. split; [reflexivity |]. split; [exact Ht |]. split; [lia |].
  f_equal. lia.
Qed.

Lemma trunc_0_7_mono (m m' : Z) : m <= m' -> trunc_0_7 m <= trunc_0_7 m'.
Proof.
  intros Hle. unfold trunc_0_7.
  destruct (bool_decide (m' ∈ rounds_below)) eqn:Hin'.
  - apply bool_decide_eq_true_1 in Hin'. unfold rounds_below in Hin'.
    assert (Hstep : m = m' \/ m <= m' - 1) by lia.
    destruct Hstep as [-> | Hlt].
    + rewrite bool_decide_eq_true_2 by exact Hin'. lia.
    + assert (7 * m / 10 <= 7 * m' / 10 - 1); [| destruct (bool_decide (m ∈ rounds_below)); lia].
      repeat (apply elem_of_cons in Hin' as [-> | Hin'];
              [Z.div_mod_to_equations; lia |]).
      apply elem_of_nil in Hin'. contradiction.
  - assert (7 * m / 10 <= 7 * m' / 10) by (apply Z.div_le_mono; lia).
    destruct (bool_decide (m ∈ rounds_below)); lia.
Qed.

(** [length_bounds] is total on token counts a [len] can return, and its
    three components have closed forms. *)
Lemma length_bounds_closed_form (n c : Z) :
  0 <= n <= sys_maxsize -> 0 <= c <= 100 ->
  exists t : Z,
    length_bounds n c =
      Some (t, Z.min 512 (Z.max 30 (n * c / 100)),
            trunc_0_7 (Z.min 512 (Z.max 30 (n * c / 100)))) /\
    30 <= t /\
    Z.min 512 t = Z.min 512 (Z.max 30 (n * c / 100)) /\
    (n * c < 2 ^ 52 -> t = Z.max 30 (n * c / 100)).
Proof.
  intros Hn Hc. unfold sys_maxsize in Hn.
  assert (Ha : 0 <= n * c < 2 ^ 70).
  { change (2 ^ 63) with 9223372036854775808 in Hn.
    change (2 ^ 70) with 1180591620717411303424. nia. }
  destruct (target_len_total n c Ha) as (t & Ht & H30 & Hsmall & Hmax).
  set (mx := Z.min 512 (Z.max 30 (n * c / 100))) in *.
  destruct (min_len_table mx) as (f & Hf & Hprod & Hb & Hmin); [lia |].
  exists t. unfold length_bounds. rewrite Ht, Hmax, Hmin.
  repeat split; auto.
Qed.

End LengthFacts.

(** ** Facts on strings and UTF-8 *)

Module StrFacts.

Lemma lstrip_nil_iff (s : list Z) : lstrip s = [] <-> forallb isspace s = true.
Proof.
  induction s as [| c r IH]; cbn [lstrip forallb]; [tauto |].
  destruct (isspace c); cbn [andb]; [exact IH |]. split; discriminate.
Qed.

Lemma lstrip_head (s : list Z) (c : Z) (r : list Z) :
  lstrip s = c :: r -> isspace c = false.
Proof.
  induction s as [| d t IH]; cbn [lstrip]; [discriminate |].
  destruct (isspace d) eqn:Hd; [exact IH |]. intros [= -> _]. exact Hd.
Qed.

(** A string strips to nothing exactly when it is empty or all whitespace. *)
Lemma strip_nil_iff (s : list Z) : strip s = [] <-> forallb isspace s = true.
Proof.
  unfold strip, rstrip. split.
  - intros H. apply (f_equal (@rev Z)) in H. rewrite rev_involutive in H.
    cbn [rev] in H. apply lstrip_nil_iff in H.
    destruct (lstrip s) as [| c r] eqn:Hs; [apply lstrip_nil_iff; exact Hs |].
    apply lstrip_head in Hs.
    rewrite forallb_forall in H. specialize (H c).
    rewrite <- in_rev in H. rewrite H in Hs by (left; reflexivity). discriminate.
  - intros H. apply lstrip_nil_iff in H. rewrite H. reflexivity.
Qed.

Lemma truthy_strip (s : list Z) :
  truthy (strip s) = negb (forallb isspace s).
Proof.
  destruct (forallb isspace s) eqn:H.
  - apply strip_nil_iff in H. rewrite H. reflexivity.
  - destruct (strip s) eqn:Hs; [| reflexivity].
    apply strip_nil_iff in Hs. congruence.
Qed.

Lemma byte_val_range (b : byte) : 0 <= byte_val b < 256.
Proof.
  unfold byte_val. pose proof (Byte.to_N_bounded b). lia.
Qed.

Lemma byte_of_val (b : byte) : byte_of_Z (byte_val b) = b.
Proof.
  unfold byte_of_Z, byte_val. rewrite N2Z.id, Byte.of_to_N. reflexivity.
Qed.

Lemma cont_spec (b : byte) (c : Z) :
  cont b = Some c -> byte_val b = 128 + c /\ 0 <= c < 64.
Proof.
  unfold cont.
  destruct (Z.leb_spec 128 (byte_val b)), (Z.ltb_spec (byte_val b) 192);
    cbn [andb]; intros [= <-]; lia.
Qed.

Ltac byte_back b :=
  match goal with
  | |- context [byte_of_Z ?e] =>
      replace e with (byte_val b) by (Z.div_mod_to_equations; lia);
      rewrite (byte_of_val b)
  end.

(** One step of the decoder: it consumes exactly the encoding of the code
    point it produces. *)
Lemma utf8_decode_step (bs : list byte) (s : list Z) :
  utf8_decode bs = Some s ->
  (bs = [] /\ s = []) \/
  exists (cp : Z) (chunk rest : list byte) (s' : list Z),
    bs = chunk ++ rest /\ s = cp :: s' /\
    encode_char cp = Some chunk /\ utf8_decode rest = Some s' /\
    (length rest < length bs)%nat /\
    (cp < 128 -> chunk = [byte_of_Z cp]).
Proof.
  destruct bs as [| b0 r0]; [intros [= <-]; left; auto |].
  intros H. right. cbn [utf8_decode] in H.
  pose proof (byte_val_range b0) as Hb0.
  set (n0 := byte_val b0) in *.
  destruct (Z.ltb_spec n0 128) as [H1 | H1].
  { destruct (utf8_decode r0) as [s' |] eqn:Hr; [| discriminate].
    injection H as <-. exists n0, [b0], r0, s'.
    repeat split; auto.
    - unfold encode_char.
      destruct (Z.ltb_spec n0 0); [lia |].
      destruct (Z.ltb_spec n0 128); [| lia].
      unfold n0. rewrite byte_of_val. reflexivity.
    - intros _. unfold n0. rewrite byte_of_val. reflexivity. }
  destruct (Z.ltb_spec n0 194) as [H2 | H2]; [discriminate |].
  destruct (Z.ltb_spec n0 224) as [H3 | H3].
  { destruct r0 as [| b1 r1]; [discriminate |].
    destruct (cont b1) as [c1 |] eqn:Hc1; [| discriminate].
    destruct (utf8_decode r1) as [s' |] eqn:Hr; [| discriminate].
    injection H as <-. apply cont_spec in Hc1 as [Hv1 Hr1].
    exists ((n0 - 192) * 64 + c1), [b0; b1], r1, s'.
    repeat split; auto; [| cbn [length]; lia | lia].
    unfold encode_char.
    destruct (Z.ltb_spec ((n0 - 192) * 64 + c1) 0); [lia |].
    destruct (Z.ltb_spec ((n0 - 192) * 64 + c1) 128); [lia |].
    destruct (Z.ltb_spec ((n0 - 192) * 64 + c1) 2048); [| lia].
    byte_back b0. byte_back b1. reflexivity. }
  destruct (Z.ltb_spec n0 240) as [H4 | H4].
  { destruct r0 as [| b1 [| b2 r2]]; try discriminate.
    destruct (cont b1) as [c1 |] eqn:Hc1; [| discriminate].
    destruct (cont b2) as [c2 |] eqn:Hc2; [| discriminate].
    destruct (utf8_decode r2) as [s' |] eqn:Hr; [| discriminate].
    apply cont_spec in Hc1 as [Hv1 Hr1]. apply cont_spec in Hc2 as [Hv2 Hr2].
    cbv zeta in H. set (cp := (n0 - 224) * 4096 + c1 * 64 + c2) in *.
    destruct (Z.ltb_spec cp 2048) as [Hlo | Hlo]; [discriminate |].
    cbn [orb] in H.
    destruct (Z.leb_spec 55296 cp) as [Hs1 | Hs1], (Z.ltb_spec cp 57344) as [Hs2 | Hs2];
      cbn [andb] in H; try discriminate; injection H as <-;
      exists cp, [b0; b1; b2], r2, s';
      (repeat split; auto; [| cbn [length]; lia | lia]);
      unfold encode_char;
      (destruct (Z.ltb_spec cp 0); [lia |]);
      (destruct (Z.ltb_spec cp 128); [lia |]);
      (destruct (Z.ltb_spec cp 2048); [lia |]);
      (destruct (Z.ltb_spec cp 65536); [| lia]);
      (destruct (Z.leb_spec 55296 cp), (Z.ltb_spec cp 57344); try lia);
      cbn [andb]; unfold cp;
      byte_back b0; byte_back b1; byte_back b2; reflexivity. }
  destruct (Z.ltb_spec n0 245) as [H5 | H5]; [| discriminate].
  destruct r0 as [| b1 [| b2 [| b3 r3]]]; try discriminate.
  destruct (cont b1) as [c1 |] eqn:Hc1; [| discriminate].
  destruct (cont b2) as [c2 |] eqn:Hc2; [| discriminate].
  destruct (cont b3) as [c3 |] eqn:Hc3; [| discriminate].
  destruct (utf8_decode r3) as [s' |] eqn:Hr; [| discriminate].
  apply cont_spec in Hc1 as [Hv1 Hr1]. apply cont_spec in Hc2 as [Hv2 Hr2].
  apply cont_spec in Hc3 as [Hv3 Hr3].
  cbv zeta in H. set (cp := (n0 - 240) * 262144 + c1 * 4096 + c2 * 64 + c3) in *.
  destruct (Z.ltb_spec cp 65536) as [Hlo | Hlo]; [discriminate |].
  destruct (Z.ltb_spec 1114111 cp) as [Hhi | Hhi]; [discriminate |].
  cbn [orb] in H. injection H as <-.
  exists cp, [b0; b1; b2; b3], r3, s'.
  repeat split; auto; [| cbn [length]; lia | lia].
  unfold encode_char.
  destruct (Z.ltb_spec cp 0); [lia |].
  destruct (Z.ltb_spec cp 128); [lia |].
  destruct (Z.ltb_spec cp 2048); [lia |].
  destruct (Z.ltb_spec cp 65536); [lia |].
  destruct (Z.ltb_spec cp 1114112); [| lia].
  unfold cp. byte_back b0. byte_back b1. byte_back b2. byte_back b3. reflexivity.
Qed.

(** Encoding what was decoded gives the bytes back. *)
Lemma utf8_encode_decode (bs : list byte) :
  forall s : list Z, utf8_decode bs = Some s -> utf8_encode s = Some bs.
Proof.
  induction bs as [bs IH] using (induction_ltof1 _ (@length byte)).
  unfold ltof in IH. intros s H.
  destruct (utf8_decode_step bs s H)
    as [[-> ->] | (cp & chunk & rest & s' & -> & -> & Hc & Hr & Hlen & _)];
    [reflexivity |].
  cbn [utf8_encode]. rewrite Hc, (IH rest Hlen s' Hr). reflexivity.
Qed.

(** A carriage return in the decoded text comes from a CR byte. *)
Lemma utf8_decode_cr (bs : list byte) :
  forall s : list Z, utf8_decode bs = Some s -> In 13 s -> In x0d bs.
Proof.
  induction bs as [bs IH] using (induction_ltof1 _ (@length byte)).
  unfold ltof in IH. intros s H Hin.
  destruct (utf8_decode_step bs s H)
    as [[-> ->] | (cp & chunk & rest & s' & -> & -> & Hc & Hr & Hlen & Hsmall)];
    [contradiction |].
  apply in_or_app. destruct Hin as [-> | Hin].
  - left. rewrite Hsmall by lia. left. reflexivity.
  - right. exact (IH rest Hlen s' Hr Hin).
Qed.

Lemma universal_newlines_id (s : list Z) :
  ~ In 13 s -> universal_newlines s = s.
Proof.
  induction s as [| c r IH]; [reflexivity |]. intros Hn.
  cbn [universal_newlines].
  destruct (Z.eqb_spec c 13) as [-> | Hc]; [exfalso; apply Hn; left; reflexivity |].
  rewrite IH; [reflexivity |]. intros Hr. apply Hn. right. exact Hr.
Qed.

End StrFacts.

(** ** Facts on the monad *)

Arguments lit : simpl never.

Lemma bind_ok {A B} (c : M A) (k : A -> M B) (w w1 : world) (a : A) :
  c w = (inr a, w1) -> bind c k w = k a w1.
Proof. intros H. unfold bind. rewrite H. reflexivity. Qed.

Lemma bind_err {A B} (c : M A) (k : A -> M B) (w w1 : world) (e : exn) :
  c w = (inl e, w1) -> bind c k w = (inl e, w1).
Proof. intros H. unfold bind. rewrite H. reflexivity. Qed.

Lemma print_eq (s : list Z) (w : world) :
  print s w = (inr tt, World (files w) (stdout w ++ [s]) (calls w)).
Proof. reflexivity. Qed.

Lemma world_eta (w : world) : World (files w) (stdout w) (calls w) = w.
Proof. destruct w; reflexivity. Qed.

(** A path looked up after a write: the written object for every path that
    names it, what was there before for the others. *)
Lemma lookup_written (fs : file_system) (path q : list Z) (n : node) :
  (<[path := n]> fs) !! q =
    if decide (resolve fs q = resolve fs path) then Some n else fs !! q.
Proof.
  change ((<[path := n]> fs) !! q)
    with (<[resolve fs path := n]> (objects fs) !! resolve fs q).
  change (fs !! q) with (objects fs !! resolve fs q).
  destruct (decide (resolve fs q = resolve fs path)) as [-> | Hne].
  - apply lookup_insert_eq.
  - apply lookup_insert_ne. congruence.
Qed.

Lemma write_text_frame (path s : list Z) (w : world) (out : list (list Z))
    (cs : list call) :
  fst (write_text path s (World (files w) out cs)) = fst (write_text path s w).
Proof.
  unfold write_text; cbn [files].
  destruct (files w !! path) as [[old |] |];
    destruct (refuses (files w) path) as [[cls msg] |];
    destruct (utf8_encode s); reflexivity.
Qed.

(** A write either stores the encoded text in the file the path names, or
    raises an exception and prints nothing. *)
Lemma write_text_cases (path s : list Z) (w : world) :
  (exists bs, utf8_encode s = Some bs /\
     write_text path s w =
       (inr tt, World (<[path := File bs]> (files w)) (stdout w) (calls w))) \/
  (exists cls msg fs,
     write_text path s w = (inl (Raise cls msg), World fs (stdout w) (calls w))).
Proof.
  unfold write_text.
  destruct (files w !! path) as [[old |] |];
    destruct (refuses (files w) path) as [[cls msg] |];
    destruct (utf8_encode s) as [bs |];
    first [ left; eexists; split; reflexivity
          | right; do 3 eexists; rewrite <- (world_eta w) at 1; reflexivity
          | right; do 3 eexists; reflexivity ].
Qed.

Lemma supported_cases (l : list Z) :
  l ∈ SUPPORTED_LANGS <-> l = lit "en" \/ l = lit "ru" \/ l = lit "de".
Proof.
  unfold SUPPORTED_LANGS. rewrite !elem_of_union, !elem_of_singleton. tauto.
Qed.

(** A language that passed the argument parser is [auto] or supported. *)
Lemma language_choice_supported (l : list Z) :
  l ∈ language_choices -> l = lit "auto" \/ l ∈ SUPPORTED_LANGS.
Proof.
  unfold language_choices. intros H.
  apply elem_of_cons in H as [-> | H]; [left; reflexivity | right].
  apply supported_cases.
  repeat (apply elem_of_cons in H as [-> | H]; [auto |]).
  apply elem_of_nil in H. contradiction.
Qed.

Lemma supported_has_name (l : list Z) :
  l ∈ SUPPORTED_LANGS -> exists n, LANG_MAP !! l = Some n.
Proof.
  intros H. apply supported_cases in H.
  destruct H as [-> | [-> | ->]]; eexists; vm_compute; reflexivity.
Qed.

(** ** Facts on the stages *)

Section ProgramFacts.

Variables token encoding : Type.
Variable detect : list Z -> list Z + list Z.
Variable pdf_pages : list byte -> list Z + list (option (list Z)).
Variable decode_error : list byte -> list Z.
Variable tokenizer_from_pretrained : list Z -> list Z + unit.
Variable model_from_pretrained : list Z -> list Z + unit.
Variable tokenizer_call : list Z -> Z -> encoding.
Variable tokenize : list Z -> list token.
Variable generate : encoding -> Z -> Z -> list Z + list token.
Variable decode : list token -> list Z.

Local Abbreviation load := (load_text pdf_pages decode_error).
Local Abbreviation summarize :=
  (summarize_text token encoding tokenizer_from_pretrained
     model_from_pretrained tokenizer_call tokenize generate decode).
Local Abbreviation main' :=
  (main token encoding detect pdf_pages decode_error tokenizer_from_pretrained
     model_from_pretrained tokenizer_call tokenize generate decode).
Local Abbreviation run' :=
  (run token encoding detect pdf_pages decode_error tokenizer_from_pretrained
     model_from_pretrained tokenizer_call tokenize generate decode).

Lemma isfile_true (w : world) (path : list Z) :
  isfile w path = true <-> exists bs, files w !! path = Some (File bs).
Proof.
  unfold isfile. destruct (files w !! path) as [[bs |] |]; split;
    try discriminate; try (intros [bs' [=]]); eauto.
Qed.

(** Reading never changes the state, and raises only [Exception]s. *)
Lemma load_text_world (path : list Z) (w : world) :
  snd (load path w) = w /\
  forall e, fst (load path w) = inl e -> exists cls msg, e = Raise cls msg.
Proof.
  unfold load_text, raise, read_text, pdfplumber_open, bind, library, ret.
  destruct (isfile w path); cbn [negb].
  2: { split; [reflexivity |]. intros e [= <-]. eauto. }
  destruct (endswith (lower path) (lit ".txt")).
  { destruct (files w !! path) as [[bs |] |].
    - destruct (utf8_decode bs); (split; [reflexivity |]); intros e [= <-]; eauto.
    - split; [reflexivity |]. intros e [= <-]. eauto.
    - split; [reflexivity |]. intros e [= <-]. eauto. }
  destruct (endswith (lower path) (lit ".pdf")).
  { destruct (files w !! path) as [[bs |] |].
    - destruct (pdf_pages bs); (split; [reflexivity |]); intros e [= <-]; eauto.
    - split; [reflexivity |]. intros e [= <-]. eauto.
    - split; [reflexivity |]. intros e [= <-]. eauto. }
  split; [reflexivity |]. intros e [= <-]. eauto.
Qed.

Lemma load_text_cases (path : list Z) (w : world) :
  (exists cls msg, load path w = (inl (Raise cls msg), w)) \/
  (exists text, load path w = (inr text, w)).
Proof.
  destruct (load_text_world path w) as [Hw He].
  destruct (load path w) as [[e | text] w'] eqn:H; cbn [fst snd] in *; subst w'.
  - destruct (He e eq_refl) as (cls & msg & ->). left. eauto.
  - right. eauto.
Qed.

Lemma parse_args_cases (a : argv) (w : world) :
  parse_args a w = (inl (SystemExit 2), w) \/
  exists args : args,
    parse_args a w = (inr args, w) /\
    language args ∈ language_choices /\
    compression args ∈ compression_choices /\
    raw_input a = Some (input args) /\
    language args = default (lit "auto") (raw_language a) /\
    compression args = default 30 (raw_compression a) /\
    output args = raw_output a.
Proof.
  unfold parse_args. destruct (raw_input a) as [i |]; [| left; reflexivity].
  case_bool_decide as Hl; cbn [negb]; [| left; reflexivity].
  case_bool_decide as Hc; cbn [negb]; [| left; reflexivity].
  right. eexists. split; [reflexivity |]. cbn. auto 10.
Qed.

Lemma detect_language_spec (text : list Z) (w : world) :
  exists (lang : list Z) (warn : list (list Z)),
    detect_language detect text w
      = (inr lang, World (files w) (stdout w ++ warn) (calls w)) /\
    lang ∈ SUPPORTED_LANGS /\
    (forall l, detect text = inr l -> l ∈ SUPPORTED_LANGS -> lang = l /\ warn = []) /\
    (forall l, detect text = inr l -> l ∉ SUPPORTED_LANGS ->
       lang = lit "en" /\ length warn = 1%nat) /\
    (forall msg, detect text = inl msg -> lang = lit "en" /\ warn = []).
Proof.
  unfold detect_language.
  assert (Hen : lit "en" ∈ SUPPORTED_LANGS) by (apply supported_cases; auto).
  destruct (detect text) as [msg | l].
  - rewrite decide_True by exact Hen.
    exists (lit "en"), []. rewrite app_nil_r, world_eta.
    split; [reflexivity |]. split; [exact Hen |].
    repeat split; try discriminate; auto.
  - destruct (decide (l ∈ SUPPORTED_LANGS)) as [Hin | Hout].
    + exists l, []. rewrite app_nil_r, world_eta.
      split; [reflexivity |]. split; [exact Hin |].
      split; [intros l' [= <-] _; auto |]. split; [| discriminate].
      intros l' [= <-] Hn. contradiction.
    + eexists (lit "en"), [_].
      split; [reflexivity |]. split; [exact Hen |].
      split; [intros l' [= <-] Hin; contradiction |].
      split; [| discriminate]. intros l' [= <-] _. auto.
Qed.

(** The summarizer only appends to the call log; what it returns and what
    it logs depend on neither the state nor the language code. *)
Lemma summarize_text_frame (text : list Z) (c L : Z) :
  exists (r : exn + list Z) (cs : list call),
    (forall code, r <> inl (SystemExit code)) /\
    forall (lang : list Z) (w : world),
      summarize text lang c L w
        = (r, World (files w) (stdout w) (calls w ++ cs)).
Proof.
  unfold summarize_text.
  destruct (truthy (strip text)); cbn [negb].
  2: { exists (inr EMPTY_TEXT), []. split; [discriminate |]. intros lang w.
       rewrite app_nil_r, world_eta. reflexivity. }
  unfold bind, log, library, arith, ret, raise; cbn [files stdout calls].
  destruct (tokenizer_from_pretrained model_name) as [e1 | []].
  { eexists (inl _), [_]. split; cycle 1; [intros lang w; reflexivity |].
    discriminate. }
  destruct (model_from_pretrained model_name) as [e2 | []].
  { eexists (inl _), [_; _]. split; cycle 1; [intros lang w |].
    - cbn [files stdout calls]. rewrite <- ?app_assoc. reflexivity.
    - discriminate. }
  destruct (target_len _ c) as [t |].
  2: { eexists (inl _), [_; _; _; _]. split; cycle 1; [intros lang w |].
       - cbn [files stdout calls]. rewrite <- ?app_assoc. reflexivity.
       - discriminate. }
  destruct (min_len (max_len t)) as [m |].
  2: { eexists (inl _), [_; _; _; _]. split; cycle 1; [intros lang w |].
       - cbn [files stdout calls]. rewrite <- ?app_assoc. reflexivity.
       - discriminate. }
  destruct (generate _ (max_len t) m) as [e3 | out].
  { eexists (inl _), [_; _; _; _; _]. split; cycle 1; [intros lang w |].
    - cbn [files stdout calls]. rewrite <- ?app_assoc. reflexivity.
    - discriminate. }
  eexists (inr _), [_; _; _; _; _; _]. split; [discriminate |]. intros lang w.
  cbn [files stdout calls]. rewrite <- ?app_assoc. reflexivity.
Qed.

Lemma summarize_text_generate (text lang : list Z) (c L t mx mn : Z) (w : world) :
  truthy (strip text) = true ->
  tokenizer_from_pretrained model_name = inr tt ->
  model_from_pretrained model_name = inr tt ->
  length_bounds (Z.of_nat (length (tokenize text))) c = Some (t, mx, mn) ->
  exists tail : list call,
    calls (snd (summarize text lang c L w))
      = calls w ++ [TokenizerFromPretrained model_name;
                    ModelFromPretrained model_name;
                    TokenizerCall text L; Tokenize text;
                    Generate mx mn 4 true] ++ tail.
Proof.
  intros Hne Ht Hm Hb. unfold length_bounds in Hb.
  unfold summarize_text. rewrite Hne; cbn [negb].
  unfold bind, log, library, arith, ret, raise; cbn [files stdout calls].
  rewrite Ht, Hm.
  destruct (target_len _ c) as [t' |]; [| discriminate].
  destruct (min_len (max_len t')) as [m' |]; [| discriminate].
  injection Hb as <- <- <-.
  destruct (generate _ (max_len t') m') as [e3 | out]; cbn [snd files stdout calls].
  - exists []. rewrite <- ?app_assoc. reflexivity.
  - exists [Decode]. rewrite <- ?app_assoc. reflexivity.
Qed.

Lemma try_except_ok {A} (c : M A) (h : list Z -> M A) (w w1 : world) (a : A) :
  c w = (inr a, w1) -> try_except c h w = (inr a, w1).
Proof. intros H. unfold try_except. rewrite H. reflexivity. Qed.

Lemma try_except_caught {A} (c : M A) (h : list Z -> M A) (w w1 : world)
    (cls : exn_class) (msg : list Z) :
  c w = (inl (Raise cls msg), w1) -> try_except c h w = h msg w1.
Proof. intros H. unfold try_except. rewrite H. reflexivity. Qed.

Lemma run_parse_error (a : argv) (w : world) :
  parse_args a w = (inl (SystemExit 2), w) -> run' a w = (2, w).
Proof.
  intros H. unfold run, main. rewrite (bind_err _ _ _ _ _ H). reflexivity.
Qed.

Lemma run_load_error (a : argv) (args : args) (cls : exn_class) (msg : list Z)
    (w : world) :
  parse_args a w = (inr args, w) ->
  load (input args) w = (inl (Raise cls msg), w) ->
  run' a w =
    (1, World (files w)
          (stdout w ++ [lit "❌ Ошибка загрузки файла: " ++ msg]) (calls w)).
Proof.
  intros Hp Hl. unfold run, main.
  rewrite (bind_ok _ _ _ _ _ Hp).
  unfold bind at 1. rewrite (try_except_caught _ _ _ _ _ _ Hl).
  rewrite (bind_ok _ _ _ _ _ (print_eq _ _)). reflexivity.
Qed.

Lemma run_blank (a : argv) (args : args) (text : list Z) (w : world) :
  parse_args a w = (inr args, w) ->
  load (input args) w = (inr text, w) ->
  forallb isspace text = true ->
  run' a w = (1, World (files w) (stdout w ++ [lit "❌ Файл пустой"]) (calls w)).
Proof.
  intros Hp Hl Hb. unfold run, main.
  rewrite (bind_ok _ _ _ _ _ Hp).
  rewrite (bind_ok _ _ _ _ _ (try_except_ok _ _ _ _ _ Hl)).
  rewrite StrFacts.truthy_strip, Hb. cbn [negb].
  unfold bind at 1. rewrite (bind_ok _ _ _ _ _ (print_eq _ _)). reflexivity.
Qed.

(** ** Verified properties of the stages *)

(** C1 (amended). On a text that is not blank, once both checkpoints load,
    the summarizer calls generation with the bounds computed from the token
    count [n] of the whole text: [target_len = max(30, n * c div 100)] (the
    quotient is truncated, not rounded; exact while [n * c < 2^52]),
    [max_len = min(512, target_len)] and
    [min_len = max(20, int(max_len * 0.7))], the double product truncated,
    which is [trunc_0_7 max_len]. *)
Theorem summarize_text_length_bounds (text lang : list Z) (c L : Z) (w : world) :
  truthy (strip text) = true ->
  tokenizer_from_pretrained model_name = inr tt ->
  model_from_pretrained model_name = inr tt ->
  Z.of_nat (length (tokenize text)) <= sys_maxsize ->
  0 <= c <= 100 ->
  exists (t mx mn : Z) (f : spec_float) (tail : list call),
    length_bounds (Z.of_nat (length (tokenize text))) c = Some (t, mx, mn) /\
    (Z.of_nat (length (tokenize text)) * c < 2 ^ 52 ->
       t = Z.max 30 (Z.of_nat (length (tokenize text)) * c / 100)) /\
    mx = Z.min 512 t /\
    Float64.float_of_int mx = Some f /\
    Float64.int_of_float (Float64.float_mul f Float64.float_0_7)
      = Some (trunc_0_7 mx) /\
    mn = Z.max 20 (trunc_0_7 mx) /\
    calls (snd (summarize text lang c L w))
      = calls w ++ [TokenizerFromPretrained model_name;
                    ModelFromPretrained model_name;
                    TokenizerCall text L; Tokenize text;
                    Generate mx mn 4 true] ++ tail.
Proof.
  intros Hne Ht Hm Hn Hc.
  set (n := Z.of_nat (length (tokenize text))) in *.
  destruct (LengthFacts.length_bounds_closed_form n c) as (t & Hb & H30 & Hmx & Hsmall);
    [lia | exact Hc |].
  set (mx := Z.min 512 (Z.max 30 (n * c / 100))) in *.
  destruct (LengthFacts.min_len_table mx) as (f & Hf & Hprod & Hrange & _);
    [unfold mx; lia |].
  destruct (summarize_text_generate text lang c L t mx (trunc_0_7 mx) w
              Hne Ht Hm Hb) as [tail Hcalls].
  exists t, mx, (trunc_0_7 mx), f, tail.
  repeat split; auto; lia.
Qed.

(** C3. [detect_language] returns for every text, empty included, and never
    raises; the code it returns is one of [en], [ru], [de], and it is the
    fallback [en] whenever the detector raises or names another code. *)
Theorem detect_language_supported (text : list Z) (w : world) :
  exists (lang : list Z) (w' : world),
    detect_language detect text w = (inr lang, w') /\
    (lang = lit "en" \/ lang = lit "ru" \/ lang = lit "de") /\
    ((exists msg, detect text = inl msg) -> lang = lit "en") /\
    (forall l, detect text = inr l -> l ∉ SUPPORTED_LANGS -> lang = lit "en").
Proof.
  destruct (detect_language_spec text w)
    as (lang & warn & Hd & Hs & _ & Hout & Herr).
  exists lang. eexists. split; [exact Hd |]. split.
  - apply supported_cases. exact Hs.
  - split.
    + intros [msg Hmsg]. exact (proj1 (Herr msg Hmsg)).
    + intros l Hl Hn. exact (proj1 (Hout l Hl Hn)).
Qed.

(** C5. On an empty or whitespace-only text the summarizer returns the
    empty-input string at once: the state is unchanged, so neither the
    tokenizer nor the model was loaded or called. *)
Theorem summarize_text_blank (text lang : list Z) (c L : Z) (w : world) :
  forallb isspace text = true ->
  summarize text lang c L w = (inr EMPTY_TEXT, w).
Proof.
  intros H. unfold summarize_text.
  rewrite StrFacts.truthy_strip, H. reflexivity.
Qed.

(** C6. [load_text] raises [FileNotFoundError] exactly when the path names
    no regular file, whatever its suffix, and raises the unsupported-format
    [ValueError] exactly when the file exists and its lowered path ends in
    neither [.txt] nor [.pdf]. *)
Theorem load_text_errors (path : list Z) (w : world) :
  ((exists msg, fst (load path w) = inl (Raise FileNotFoundError msg))
     <-> isfile w path = false) /\
  ((exists msg, fst (load path w) = inl (Raise ValueError msg))
     <-> (isfile w path = true /\
          endswith (lower path) (lit ".txt") = false /\
          endswith (lower path) (lit ".pdf") = false)) /\
  (forall msg, fst (load path w) = inl (Raise ValueError msg) ->
     msg = UNSUPPORTED_FORMAT).
Proof.
  unfold load_text, raise, read_text, pdfplumber_open, bind, library, ret.
  destruct (isfile w path) eqn:Hf; cbn [negb fst].
  2: { split; [split; eauto |]. split; [split |].
       - intros [msg [=]].
       - intros [[=] _].
       - intros msg [=]. }
  apply isfile_true in Hf as [bs Hbs]. rewrite Hbs.
  destruct (endswith (lower path) (lit ".txt")).
  { destruct (utf8_decode bs); cbn [fst];
      (split; [split; [intros [msg [=]] | discriminate] |]);
      (split; [split; [intros [msg [=]] | intros (_ & [=] & _)] | intros msg [=]]). }
  destruct (endswith (lower path) (lit ".pdf")).
  { destruct (pdf_pages bs); cbn [fst];
      (split; [split; [intros [msg [=]] | discriminate] |]);
      (split; [split; [intros [msg [=]] | intros (_ & _ & [=])] | intros msg [=]]). }
  cbn [fst]. split; [split; [intros [msg [=]] | discriminate] |].
  split; [split; eauto |]. intros msg [= <-]. reflexivity.
Qed.

(** C7 (amended). For an existing file whose path ends in [.txt], in any
    letter case, [load_text] returns the UTF-8 decoding of the file's bytes
    with every [\r\n] and lone [\r] turned into [\n], and raises the codec's
    error when the bytes are not valid UTF-8. When the bytes are valid and
    hold no carriage return, the returned text is the file's content as it
    is: encoding it gives the same bytes. *)
Theorem load_text_txt (path : list Z) (w : world) (bs : list byte) :
  files w !! path = Some (File bs) ->
  endswith (lower path) (lit ".txt") = true ->
  load path w =
    (match utf8_decode bs with
     | Some s => inr (universal_newlines s)
     | None => inl (Raise UnicodeDecodeError (decode_error bs))
     end, w) /\
  (forall s, utf8_decode bs = Some s -> ~ In x0d bs ->
     load path w = (inr s, w) /\ utf8_encode s = Some bs).
Proof.
  intros Hbs Htxt.
  assert (Hload : load path w =
            (match utf8_decode bs with
             | Some s => inr (universal_newlines s)
             | None => inl (Raise UnicodeDecodeError (decode_error bs))
             end, w)).
  { unfold load_text, read_text.
    rewrite (proj2 (isfile_true w path) (ex_intro _ bs Hbs)). cbn [negb].
    rewrite Htxt, Hbs. destruct (utf8_decode bs); reflexivity. }
  split; [exact Hload |].
  intros s Hs Hcr. rewrite Hload, Hs. split.
  - rewrite StrFacts.universal_newlines_id; [reflexivity |].
    intros H13. apply Hcr. exact (StrFacts.utf8_decode_cr bs s Hs H13).
  - exact (StrFacts.utf8_encode_decode bs s Hs).
Qed.

End ProgramFacts.

(** ** Verified properties of the length arithmetic *)

Lemma compression_choices_range (c : Z) :
  c ∈ compression_choices -> 20 <= c <= 50.
Proof.
  unfold compression_choices. intros H.
  repeat (apply elem_of_cons in H as [-> | H]; [lia |]).
  apply elem_of_nil in H. contradiction.
Qed.

(** C1, as the specification words it, fails: with 199 tokens at 20 percent
    the quotient is 39.8, which the code truncates to 39 where rounding
    gives 40. *)
Lemma length_bounds_not_rounded :
  length_bounds 199 20 <> Some (spec_length_bounds 199 20).
Proof. vm_compute. discriminate. Qed.

(** C2. For a compression level among 20, 30 and 50 and any token count a
    [len] can return, the bounds are computed and satisfy
    [min_len <= max_len <= 512] and [30 <= max_len]. *)
Theorem length_bounds_ordered (n c : Z) :
  0 <= n <= sys_maxsize -> c ∈ compression_choices ->
  exists t mx mn : Z,
    length_bounds n c = Some (t, mx, mn) /\
    mn <= mx /\ mx <= 512 /\ 30 <= mx.
Proof.
  intros Hn Hc. apply compression_choices_range in Hc.
  destruct (LengthFacts.length_bounds_closed_form n c Hn) as (t & Hb & _); [lia |].
  set (mx := Z.min 512 (Z.max 30 (n * c / 100))) in *.
  destruct (LengthFacts.min_len_table mx) as (_ & _ & _ & Hr & _); [unfold mx; lia |].
  exists t, mx, (trunc_0_7 mx). split; [exact Hb |]. unfold mx in *. lia.
Qed.

(** C9. For the same inputs, [min_len] is the truncated double product
    [int(max_len * 0.7)] itself and is at least 21: in [max(20, ...)] the
    constant 20 is never the larger operand. *)
Theorem min_len_floor_unused (n c : Z) :
  0 <= n <= sys_maxsize -> c ∈ compression_choices ->
  exists (t mx mn : Z) (f : spec_float),
    length_bounds n c = Some (t, mx, mn) /\
    Float64.float_of_int mx = Some f /\
    Float64.int_of_float (Float64.float_mul f Float64.float_0_7) = Some mn /\
    21 <= mn /\ Z.max 20 mn = mn.
Proof.
  intros Hn Hc. apply compression_choices_range in Hc.
  destruct (LengthFacts.length_bounds_closed_form n c Hn) as (t & Hb & _); [lia |].
  set (mx := Z.min 512 (Z.max 30 (n * c / 100))) in *.
  destruct (LengthFacts.min_len_table mx) as (f & Hf & Hp & Hr & _); [unfold mx; lia |].
  exists t, mx, (trunc_0_7 mx), f. repeat split; auto; lia.
Qed.

(** C10. [max_len] and [min_len] do not decrease when the compression level
    grows within 20, 30, 50 or when the token count grows; taking [n = n']
    or [c = c'] gives the two statements separately. *)
Theorem length_bounds_monotone (n n' c c' : Z) :
  0 <= n -> n <= n' -> n' <= sys_maxsize ->
  c ∈ compression_choices -> c' ∈ compression_choices -> c <= c' ->
  exists t mx mn t' mx' mn' : Z,
    length_bounds n c = Some (t, mx, mn) /\
    length_bounds n' c' = Some (t', mx', mn') /\
    mx <= mx' /\ mn <= mn'.
Proof.
  intros Hn0 Hnn Hn' Hc Hc' Hcc.
  apply compression_choices_range in Hc, Hc'.
  destruct (LengthFacts.length_bounds_closed_form n c) as (t & Hb & _); [lia | lia |].
  destruct (LengthFacts.length_bounds_closed_form n' c') as (t' & Hb' & _); [lia | lia |].
  assert (Hq : n * c / 100 <= n' * c' / 100).
  { apply Z.div_le_mono; [lia |]. nia. }
  assert (Hmx : Z.min 512 (Z.max 30 (n * c / 100))
                <= Z.min 512 (Z.max 30 (n' * c' / 100))) by lia.
  do 6 eexists. split; [exact Hb |]. split; [exact Hb' |].
  split; [exact Hmx |]. apply LengthFacts.trunc_0_7_mono. exact Hmx.
Qed.

(** ** The properties at concrete inputs *)

Lemma length_bounds_ordered_witness :
  exists t mx mn : Z,
    length_bounds 300 30 = Some (t, mx, mn) /\
    mn <= mx /\ mx <= 512 /\ 30 <= mx.
Proof.
  apply (length_bounds_ordered 300 30).
  - unfold sys_maxsize. lia.
  - unfold compression_choices. apply list_elem_of_In. cbn. auto.
Defined.

Lemma min_len_floor_unused_witness :
  exists (t mx mn : Z) (f : spec_float),
    length_bounds 100 20 = Some (t, mx, mn) /\
    Float64.float_of_int mx = Some f /\
    Float64.int_of_float (Float64.float_mul f Float64.float_0_7) = Some mn /\
    21 <= mn /\ Z.max 20 mn = mn.
Proof.
  apply (min_len_floor_unused 100 20).
  - unfold sys_maxsize. lia.
  - unfold compression_choices. apply list_elem_of_In. cbn. auto.
Defined.

Lemma length_bounds_monotone_witness :
  exists t mx mn t' mx' mn' : Z,
    length_bounds 400 20 = Some (t, mx, mn) /\
    length_bounds 900 50 = Some (t', mx', mn') /\
    mx <= mx' /\ mn <= mn'.
Proof.
  apply (length_bounds_monotone 400 900 20 50); try lia.
  - unfold sys_maxsize. lia.
  - unfold compression_choices. apply list_elem_of_In. cbn. auto.
  - unfold compression_choices. apply list_elem_of_In. cbn. auto.
Defined.

Lemma summarize_text_length_bounds_witness :
  exists (mx mn : Z) (tail : list call),
    calls (snd (Demo.summarize_demo Demo.text (lit "en") 30 1024 Demo.disk))
      = calls Demo.disk ++
          [TokenizerFromPretrained model_name; ModelFromPretrained model_name;
           TokenizerCall Demo.text 1024; Tokenize Demo.text;
           Generate mx mn 4 true] ++ tail /\
    mx = 30 /\ mn = 21.
Proof.
  destruct (summarize_text_length_bounds Z (list Z) Demo.loaded Demo.loaded
              Demo.truncated Demo.code_points Demo.answer_X Demo.same
              Demo.text (lit "en") 30 1024 Demo.disk)
    as (t & mx & mn & f & tail & Hb & _ & _ & _ & _ & _ & Hcalls).
  - reflexivity.
  - reflexivity.
  - reflexivity.
  - vm_compute. discriminate.
  - lia.
  - exists mx, mn, tail. split; [exact Hcalls |].
    vm_compute in Hb. injection Hb as _ <- <-. split; reflexivity.
Defined.

Lemma detect_language_supported_witness :
  fst (detect_language Demo.detect_fr Demo.text Demo.disk) = inr (lit "en").
Proof.
  destruct (detect_language_supported Demo.detect_fr Demo.text Demo.disk)
    as (lang & w' & Hd & _ & _ & Hfb).
  rewrite Hd. cbn [fst]. f_equal.
  apply (Hfb (lit "fr")); [reflexivity |].
  rewrite supported_cases. vm_compute. intros [H | [H | H]]; discriminate.
Defined.

Lemma summarize_text_blank_witness :
  Demo.summarize_demo [32; 10; 9; 160] (lit "ru") 50 1024 Demo.disk
    = (inr EMPTY_TEXT, Demo.disk).
Proof.
  apply (summarize_text_blank Z (list Z) Demo.loaded Demo.loaded Demo.truncated
           Demo.code_points Demo.answer_X Demo.same).
  reflexivity.
Defined.

Lemma load_text_txt_witness :
  Demo.load_demo (lit "notes.TXT") Demo.disk = (inr Demo.text, Demo.disk) /\
  utf8_encode Demo.text = Some Demo.sample.
Proof.
  destruct (load_text_txt Demo.no_pages Demo.codec_message (lit "notes.TXT")
              Demo.disk Demo.sample) as [_ H].
  - vm_compute. reflexivity.
  - reflexivity.
  - apply H; [vm_compute; reflexivity |].
    vm_compute. intros Hin.
    repeat (destruct Hin as [Hin | Hin]; [discriminate Hin |]).
    exact Hin.
Defined.

(** C7, as stated, fails on a file with a DOS line ending: the text returned
    for the bytes [a \r \n b] is [a \n b], which does not encode back to the
    file's content. *)
Lemma load_text_translates_newlines :
  ~ exists s : list Z,
      Demo.load_demo (lit "dos.txt") Demo.disk = (inr s, Demo.disk) /\
      utf8_encode s = Some Demo.crlf_bytes.
Proof.
  intros (s & H & He). vm_compute in H. injection H as <-.
  vm_compute in He. discriminate.
Qed.

(** ** Further facts on strings, the codec and the length arithmetic *)

Module MoreFacts.
Import StrFacts.

Lemma byte_val_of_Z (z : Z) : 0 <= z < 256 -> byte_val (byte_of_Z z) = z.
Proof.
  intros Hz. unfold byte_val, byte_of_Z.
  destruct (Byte.of_N (Z.to_N z)) as [b |] eqn:Hb.
  - rewrite (@Byte.to_of_N _ _ Hb). lia.
  - apply Byte.of_N_None_iff in Hb. lia.
Qed.

Lemma cont_of_Z (c : Z) : 0 <= c < 64 -> cont (byte_of_Z (128 + c)) = Some c.
Proof.
  intros Hc. unfold cont. rewrite byte_val_of_Z by lia.
  destruct (Z.leb_spec 128 (128 + c)); [| lia].
  destruct (Z.ltb_spec (128 + c) 192); [| lia].
  cbn [andb]. f_equal. lia.
Qed.

(** Decoding the encoding of one code point, followed by more bytes. *)
Lemma utf8_decode_char (cp : Z) (chunk rest : list byte) :
  encode_char cp = Some chunk ->
  utf8_decode (chunk ++ rest) =
    match utf8_decode rest with
    | Some s => Some (cp :: s)
    | None => None
    end.
Proof.
  unfold encode_char.
  destruct (Z.ltb_spec cp 0) as [H0 | H0]; [discriminate |].
  destruct (Z.ltb_spec cp 128) as [H1 | H1].
  { intros [= <-]. cbn [app utf8_decode].
    rewrite byte_val_of_Z by lia.
    destruct (Z.ltb_spec cp 128); [reflexivity | lia]. }
  destruct (Z.ltb_spec cp 2048) as [H2 | H2].
  { intros [= <-]. cbn [app utf8_decode].
    assert (Hq : 2 <= cp / 64 < 32) by (Z.div_mod_to_equations; lia).
    assert (Hr : 0 <= cp mod 64 < 64) by (Z.div_mod_to_equations; lia).
    rewrite byte_val_of_Z by lia.
    destruct (Z.ltb_spec (192 + cp / 64) 128); [lia |].
    destruct (Z.ltb_spec (192 + cp / 64) 194); [lia |].
    destruct (Z.ltb_spec (192 + cp / 64) 224); [| lia].
    rewrite cont_of_Z by lia.
    replace ((192 + cp / 64 - 192) * 64 + cp mod 64) with cp
      by (Z.div_mod_to_equations; lia).
    reflexivity. }
  destruct (Z.ltb_spec cp 65536) as [H3 | H3].
  { destruct (Z.leb_spec 55296 cp) as [Hs1 | Hs1],
             (Z.ltb_spec cp 57344) as [Hs2 | Hs2];
      cbn [andb]; try discriminate; intros [= <-]; cbn [app utf8_decode];
      assert (Hq : 0 <= cp / 4096 < 16) by (Z.div_mod_to_equations; lia);
      assert (Hm : 0 <= (cp / 64) mod 64 < 64) by (Z.div_mod_to_equations; lia);
      assert (Hr : 0 <= cp mod 64 < 64) by (Z.div_mod_to_equations; lia);
      rewrite byte_val_of_Z by lia;
      (destruct (Z.ltb_spec (224 + cp / 4096) 128); [lia |]);
      (destruct (Z.ltb_spec (224 + cp / 4096) 194); [lia |]);
      (destruct (Z.ltb_spec (224 + cp / 4096) 224); [lia |]);
      (destruct (Z.ltb_spec (224 + cp / 4096) 240); [| lia]);
      rewrite !cont_of_Z by lia; cbv zeta;
      replace ((224 + cp / 4096 - 224) * 4096 + (cp / 64) mod 64 * 64 + cp mod 64)
        with cp by (Z.div_mod_to_equations; lia);
      (destruct (Z.ltb_spec cp 2048); [lia |]);
      (destruct (Z.leb_spec 55296 cp), (Z.ltb_spec cp 57344); try lia);
      reflexivity. }
  destruct (Z.ltb_spec cp 1114112) as [H4 | H4]; [| discriminate].
  intros [= <-]. cbn [app utf8_decode].
  assert (Hq : 0 <= cp / 262144 < 5) by (Z.div_mod_to_equations; lia).
  assert (Hm1 : 0 <= (cp / 4096) mod 64 < 64) by (Z.div_mod_to_equations; lia).
  assert (Hm2 : 0 <= (cp / 64) mod 64 < 64) by (Z.div_mod_to_equations; lia).
  assert (Hr : 0 <= cp mod 64 < 64) by (Z.div_mod_to_equations; lia).
  rewrite byte_val_of_Z by lia.
  destruct (Z.ltb_spec (240 + cp / 262144) 128); [lia |].
  destruct (Z.ltb_spec (240 + cp / 262144) 194); [lia |].
  destruct (Z.ltb_spec (240 + cp / 262144) 224); [lia |].
  destruct (Z.ltb_spec (240 + cp / 262144) 240); [lia |].
  destruct (Z.ltb_spec (240 + cp / 262144) 245); [| lia].
  rewrite !cont_of_Z by lia. cbv zeta.
  replace ((240 + cp / 262144 - 240) * 262144 + (cp / 4096) mod 64 * 4096
           + (cp / 64) mod 64 * 64 + cp mod 64)
    with cp by (Z.div_mod_to_equations; lia).
  destruct (Z.ltb_spec cp 65536); [lia |].
  destruct (Z.ltb_spec 1114111 cp); [lia |].
  reflexivity.
Qed.

(** Decoding what was encoded gives the text back. *)
Lemma utf8_decode_encode (s : list Z) (bs : list byte) :
  utf8_encode s = Some bs -> utf8_decode bs = Some s.
Proof.
  revert bs. induction s as [| cp r IH]; intros bs; cbn [utf8_encode].
  - intros [= <-]. reflexivity.
  - destruct (encode_char cp) as [chunk |] eqn:Hc; [| discriminate].
    destruct (utf8_encode r) as [rest |]; [| discriminate].
    intros [= <-]. rewrite (utf8_decode_char cp chunk rest Hc).
    rewrite (IH rest eq_refl). reflexivity.
Qed.

Lemma fold_left_pages (pages : list (option (list Z))) (acc : list Z) :
  fold_left (fun text page => text ++ default [] page) pages acc
    = acc ++ concat (map (default []) pages).
Proof.
  revert acc. induction pages as [| p r IH]; intros acc; cbn [fold_left map concat].
  - rewrite app_nil_r. reflexivity.
  - rewrite IH, <- app_assoc. reflexivity.
Qed.

Lemma forallb_concat_blank (pages : list (option (list Z))) :
  Forall (fun p => forallb isspace (default [] p) = true) pages ->
  forallb isspace (concat (map (default []) pages)) = true.
Proof.
  induction 1 as [| p r Hp _ IH]; cbn [map concat]; [reflexivity |].
  rewrite forallb_app, Hp, IH. reflexivity.
Qed.

(** What [length_bounds] returns on inputs the program can meet. *)
Lemma length_bounds_range (n c t mx mn : Z) :
  0 <= n <= sys_maxsize -> 0 <= c <= 100 ->
  length_bounds n c = Some (t, mx, mn) ->
  mx = Z.min 512 (Z.max 30 (n * c / 100)) /\ mn = trunc_0_7 mx /\
  30 <= mx <= 512 /\ 21 <= mn <= mx.
Proof.
  intros Hn Hc Hb.
  destruct (LengthFacts.length_bounds_closed_form n c Hn Hc) as (t' & Hb' & _).
  rewrite Hb' in Hb. injection Hb as _ <- <-.
  destruct (LengthFacts.min_len_table (Z.min 512 (Z.max 30 (n * c / 100))))
    as (_ & _ & _ & Hr & _); [lia |].
  repeat split; lia.
Qed.

End MoreFacts.

(** ** Further facts on the stages *)


Lemma pdf_not_txt (s : list Z) :
  endswith s (lit ".pdf") = true -> endswith s (lit ".txt") = false.
Proof.
  unfold endswith. change (rev (lit ".txt")) with [116; 120; 116; 46].
  change (rev (lit ".pdf")) with [102; 100; 112; 46].
  destruct (rev s) as [| c r]; [discriminate |].
  cbn [startswith]. intros H. apply andb_prop in H as [Hc _].
  apply Z.eqb_eq in Hc. subst c. reflexivity.
Qed.

Lemma bind_ext {A B} (c : M A) (k1 k2 : A -> M B) (w : world) :
  (forall x w', c w = (inr x, w') -> k1 x w' = k2 x w') ->
  bind c k1 w = bind c k2 w.
Proof.
  intros H. unfold bind. destruct (c w) as [[e | x] w']; [reflexivity |].
  apply H. reflexivity.
Qed.

Section StageOutcomes.

Variables token encoding : Type.
Variable detect : list Z -> list Z + list Z.
Variable pdf_pages : list byte -> list Z + list (option (list Z)).
Variable decode_error : list byte -> list Z.
Variable tokenizer_from_pretrained : list Z -> list Z + unit.
Variable model_from_pretrained : list Z -> list Z + unit.
Variable tokenizer_call : list Z -> Z -> encoding.
Variable tokenize : list Z -> list token.
Variable generate : encoding -> Z -> Z -> list Z + list token.
Variable decode : list token -> list Z.

Local Abbreviation load := (load_text pdf_pages decode_error).
Local Abbreviation summarize :=
  (summarize_text token encoding tokenizer_from_pretrained
     model_from_pretrained tokenizer_call tokenize generate decode).
Local Abbreviation main' :=
  (main token encoding detect pdf_pages decode_error tokenizer_from_pretrained
     model_from_pretrained tokenizer_call tokenize generate decode).
Local Abbreviation run' :=
  (run token encoding detect pdf_pages decode_error tokenizer_from_pretrained
     model_from_pretrained tokenizer_call tokenize generate decode).
Local Abbreviation logged w cs := (World (files w) (stdout w) (calls w ++ cs)).
Local Abbreviation printed w ls := (World (files w) (stdout w ++ ls) (calls w)).

(** The summarizer on a text that is not blank, by the first library call
    that raises. *)
Lemma summarize_text_outcome (text lang : list Z) (c L : Z) (w : world) :
  truthy (strip text) = true ->
  summarize text lang c L w =
    match tokenizer_from_pretrained model_name with
    | inl m =>
        (inl (Raise LibraryError m), logged w [TokenizerFromPretrained model_name])
    | inr _ =>
        match model_from_pretrained model_name with
        | inl m =>
            (inl (Raise LibraryError m),
             logged w [TokenizerFromPretrained model_name;
                       ModelFromPretrained model_name])
        | inr _ =>
            match length_bounds (Z.of_nat (length (tokenize text))) c with
            | None => (inl (Raise OverflowError []), logged w (preparation text L))
            | Some (_, mx, mn) =>
                match generate (tokenizer_call text L) mx mn with
                | inl m =>
                    (inl (Raise LibraryError m),
                     logged w (preparation text L ++ [Generate mx mn 4 true]))
                | inr out =>
                    (inr (decode out),
                     logged w (preparation text L ++ [Generate mx mn 4 true; Decode]))
                end
            end
        end
    end.
Proof.
  intros Hne. unfold summarize_text, length_bounds, preparation.
  rewrite Hne; cbn [negb].
  unfold bind, log, library, arith, ret, raise; cbn [files stdout calls].
  destruct (tokenizer_from_pretrained model_name) as [e1 | []]; [reflexivity |].
  destruct (model_from_pretrained model_name) as [e2 | []];
    cbn [files stdout calls]; [rewrite <- ?app_assoc; reflexivity |].
  destruct (target_len _ c) as [t |];
    cbn [files stdout calls]; [| rewrite <- ?app_assoc; reflexivity].
  destruct (min_len (max_len t)) as [m |];
    cbn [files stdout calls]; [| rewrite <- ?app_assoc; reflexivity].
  destruct (generate _ (max_len t) m) as [e3 | out];
    cbn [files stdout calls]; rewrite <- ?app_assoc; reflexivity.
Qed.

(** [main] from the language stage on, once the text is loaded and is not
    blank: the resolved language, the lines printed before the summarizer
    runs, and what follows its return. *)
Lemma main_stages (a : argv) (args : args) (text : list Z) (w : world) :
  parse_args a w = (inr args, w) ->
  load (input args) w = (inr text, w) ->
  forallb isspace text = false ->
  exists (lang name : list Z) (warn : list (list Z)),
    lang ∈ SUPPORTED_LANGS /\ LANG_MAP !! lang = Some name /\
    (if bool_decide (language args = lit "auto")
     then detect_language detect text w = (inr lang, printed w warn)
     else lang = language args /\ warn = []) /\
    main' a w =
      match summarize text lang (compression args) 1024
              (printed w (warn ++ status_lines lang name (compression args))) with
      | (inl e, w1) => (inl e, w1)
      | (inr summary, w1) =>
          match output args with
          | Some path =>
              if truthy path then
                write_text path summary ;; print (confirmation_line path)
              else ret tt
          | None => ret tt
          end (printed w1 (display_lines summary))
      end.
Proof.
  intros Hparse Hload Hnb.
  destruct (parse_args_cases a w) as [Hbad | (args' & Hp & Hl & _)];
    [congruence |].
  assert (args' = args) by congruence. subst args'.
  assert (Hlang : exists lang warn,
             (if bool_decide (language args = lit "auto")
              then detect_language detect text else ret (language args)) w
             = (inr lang, printed w warn) /\
             lang ∈ SUPPORTED_LANGS /\
             (if bool_decide (language args = lit "auto")
              then detect_language detect text w = (inr lang, printed w warn)
              else lang = language args /\ warn = [])).
  { case_bool_decide as Hauto.
    - destruct (detect_language_spec detect text w) as (lang & warn & Hd & Hs & _).
      exists lang, warn. auto.
    - destruct (language_choice_supported _ Hl) as [Heq | Hs]; [contradiction |].
      exists (language args), []. rewrite app_nil_r, world_eta. auto. }
  destruct Hlang as (lang & warn & Hlang & Hsup & Hres).
  destruct (supported_has_name lang Hsup) as [name Hname].
  exists lang, name, warn.
  split; [exact Hsup |]. split; [exact Hname |]. split; [exact Hres |].
  unfold main.
  rewrite (bind_ok _ _ _ _ _ Hparse).
  rewrite (bind_ok _ _ _ _ _ (try_except_ok _ _ _ _ _ Hload)).
  rewrite StrFacts.truthy_strip, Hnb. cbn [negb].
  rewrite (bind_ok (ret tt) _ w w tt eq_refl).
  rewrite (bind_ok _ _ _ _ _ Hlang).
  rewrite (bool_decide_eq_true_2 _ Hsup). cbn [negb].
  rewrite (bind_ok (ret tt) _ _ _ tt eq_refl).
  rewrite Hname.
  rewrite (bind_ok (ret name) _ _ _ name eq_refl).
  rewrite (bind_ok _ _ _ _ _ (print_eq _ _)).
  rewrite (bind_ok _ _ _ _ _ (print_eq _ _)).
  rewrite (bind_ok _ _ _ _ _ (print_eq _ _)).
  cbn [files stdout calls]. unfold status_lines. rewrite <- !app_assoc.
  cbn [app].
  unfold bind at 1.
  destruct (summarize text lang (compression args) 1024 _) as [[e | summary] w1];
    [reflexivity |].
  rewrite (bind_ok _ _ _ _ _ (print_eq _ _)).
  rewrite (bind_ok _ _ _ _ _ (print_eq _ _)).
  rewrite (bind_ok _ _ _ _ _ (print_eq _ _)).
  rewrite (bind_ok _ _ _ _ _ (print_eq _ _)).
  cbn [files stdout calls]. unfold display_lines, confirmation_line.
  rewrite <- !app_assoc. reflexivity.
Qed.

(** Every run, by the stage that ends it, with the state it leaves. *)
Lemma run_outcome (a : argv) (w : world) :
  (parse_args a w = (inl (SystemExit 2), w) /\ run' a w = (2, w)) \/
  exists args : args,
    parse_args a w = (inr args, w) /\
    ((exists cls msg,
        load (input args) w = (inl (Raise cls msg), w) /\
        run' a w = (1, printed w [lit "❌ Ошибка загрузки файла: " ++ msg])) \/
     exists text : list Z,
       load (input args) w = (inr text, w) /\
       ((forallb isspace text = true /\
         run' a w = (1, printed w [lit "❌ Файл пустой"])) \/
        (forallb isspace text = false /\
         exists (lang name : list Z) (warn : list (list Z))
                (r : exn + list Z) (cs : list call),
           lang ∈ SUPPORTED_LANGS /\ LANG_MAP !! lang = Some name /\
           (if bool_decide (language args = lit "auto")
            then detect_language detect text w = (inr lang, printed w warn)
            else lang = language args /\ warn = []) /\
           (forall l w0, summarize text l (compression args) 1024 w0
                         = (r, logged w0 cs)) /\
           match r with
           | inl e =>
               run' a w =
                 (1, World (files w)
                       (stdout w ++ warn ++ status_lines lang name (compression args))
                       (calls w ++ cs))
           | inr summary =>
               let out :=
                 stdout w ++ warn ++ status_lines lang name (compression args)
                 ++ display_lines summary in
               match output args with
               | None => run' a w = (0, World (files w) out (calls w ++ cs))
               | Some path =>
                   if truthy path then
                     match files w !! path with
                     | Some Dir =>
                         run' a w = (1, World (files w) out (calls w ++ cs))
                     | _ =>
                         match refuses (files w) path with
                         | Some _ =>
                             run' a w = (1, World (files w) out (calls w ++ cs))
                         | None =>
                             match utf8_encode summary with
                             | None =>
                                 run' a w =
                                   (1, World (<[path := File []]> (files w)) out
                                         (calls w ++ cs))
                             | Some bs =>
                                 run' a w =
                                   (0, World (<[path := File bs]> (files w))
                                         (out ++ [confirmation_line path])
                                         (calls w ++ cs))
                             end
                         end
                     end
                   else run' a w = (0, World (files w) out (calls w ++ cs))
               end
           end))).
Proof.
  destruct (parse_args_cases a w) as [Hbad | (args & Hp & _)].
  { left. split; [exact Hbad | exact (run_parse_error _ _ _ _ _ _ _ _ _ _ _ a w Hbad)]. }
  right. exists args. split; [exact Hp |].
  destruct (load_text_cases pdf_pages decode_error (input args) w)
    as [(cls & msg & Hl) | (text & Hl)].
  { left. exists cls, msg. split; [exact Hl |].
    exact (run_load_error _ _ _ _ _ _ _ _ _ _ _ a args cls msg w Hp Hl). }
  right. exists text. split; [exact Hl |].
  destruct (forallb isspace text) eqn:Hb.
  { left. split; [reflexivity |].
    exact (run_blank _ _ _ _ _ _ _ _ _ _ _ a args text w Hp Hl Hb). }
  right. split; [reflexivity |].
  destruct (main_stages a args text w Hp Hl Hb)
    as (lang & name & warn & Hsup & Hname & Hres & Hmain).
  destruct (summarize_text_frame token encoding tokenizer_from_pretrained
              model_from_pretrained tokenizer_call tokenize generate decode
              text (compression args) 1024) as (r & cs & Hnx & Hsum).
  exists lang, name, warn, r, cs.
  split; [exact Hsup |]. split; [exact Hname |]. split; [exact Hres |].
  split; [exact Hsum |].
  rewrite Hsum in Hmain. cbn [files stdout calls] in Hmain.
  unfold run. rewrite Hmain.
  destruct r as [e | summary].
  { destruct e as [cls msg | code]; [reflexivity |].
    exfalso. exact (Hnx code eq_refl). }
  cbv zeta. cbn [files stdout calls].
  destruct (output args) as [path |]; [| rewrite <- !app_assoc; reflexivity].
  destruct (truthy path); [| rewrite <- !app_assoc; reflexivity].
  unfold bind, write_text, print; cbn [files stdout calls].
  destruct (files w !! path) as [[old |] |];
    destruct (refuses (files w) path) as [[rcls rmsg] |];
    destruct (utf8_encode summary) as [bs |];
    cbn [files stdout calls]; rewrite <- !app_assoc; reflexivity.
Qed.



Lemma detect_language_outcome (text : list Z) (w : world) :
  detect_language detect text w =
    match detect text with
    | inl _ => (inr (lit "en"), w)
    | inr l =>
        if bool_decide (l ∈ SUPPORTED_LANGS) then (inr l, w)
        else (inr (lit "en"), printed w [warning_line l])
    end.
Proof.
  unfold detect_language, warning_line.
  destruct (detect text) as [msg | l].
  - rewrite decide_True by (apply supported_cases; auto). reflexivity.
  - destruct (decide (l ∈ SUPPORTED_LANGS)) as [Hin | Hout].
    + rewrite (bool_decide_eq_true_2 _ Hin). reflexivity.
    + rewrite (bool_decide_eq_false_2 _ Hout). reflexivity.
Qed.

(** The calls of one summarizer run on a text that is not blank: the
    tokenizer load comes first, and a generation call carries the bounds of
    [length_bounds] with beam width 4 and early stopping. *)
Lemma summarize_text_calls (text : list Z) (c L : Z) (r : exn + list Z)
    (cs : list call) :
  truthy (strip text) = true ->
  (forall l w0, summarize text l c L w0 = (r, logged w0 cs)) ->
  (exists rest, cs = TokenizerFromPretrained model_name :: rest) /\
  (forall mx mn b e, In (Generate mx mn b e) cs ->
     (exists t, length_bounds (Z.of_nat (length (tokenize text))) c
                = Some (t, mx, mn)) /\ b = 4 /\ e = true) /\
  (tokenizer_from_pretrained model_name = inr tt ->
   model_from_pretrained model_name = inr tt ->
   forall t mx mn,
     length_bounds (Z.of_nat (length (tokenize text))) c = Some (t, mx, mn) ->
     In (Generate mx mn 4 true) cs).
Proof.
  intros Hne Hsum.
  specialize (Hsum [] (World (FileSystem ∅ (fun q => q) (fun _ => None)) [] [])).
  rewrite (summarize_text_outcome text [] c L _ Hne) in Hsum.
  cbn [files stdout calls app] in Hsum. unfold preparation in Hsum.
  destruct (tokenizer_from_pretrained model_name) as [e1 | []].
  { injection Hsum as _ <-. split; [eauto |]. split.
    - intros mx mn b e [H | []]. discriminate.
    - discriminate. }
  destruct (model_from_pretrained model_name) as [e2 | []].
  { injection Hsum as _ <-. split; [eauto |]. split.
    - intros mx mn b e [H | [H | []]]; discriminate.
    - intros _ [=]. }
  destruct (length_bounds _ c) as [[[t mx] mn] |].
  2: { injection Hsum as _ <-. split; [eauto |]. split.
       - intros mx mn b e [H | [H | [H | [H | []]]]]; discriminate.
       - intros _ _ t mx mn [=]. }
  destruct (generate _ mx mn) as [e3 | out]; injection Hsum as _ <-;
    (split; [eauto |]); cbn [app]; split.
  - intros mx' mn' b e [H | [H | [H | [H | [H | []]]]]]; try discriminate.
    injection H as <- <- <- <-. eauto.
  - intros _ _ t' mx' mn' [= _ <- <-]. cbn [In]. auto 10.
  - intros mx' mn' b e [H | [H | [H | [H | [H | [H | []]]]]]]; try discriminate.
    injection H as <- <- <- <-. eauto.
  - intros _ _ t' mx' mn' [= _ <- <-]. cbn [In]. auto 10.
Qed.

Ltac run_stages a w :=
  let Hrej := fresh "Hrej" in let Hrun := fresh "Hrun" in
  let args := fresh "pa" in let Hp := fresh "Hp" in
  let cls := fresh "cls" in let msg := fresh "msg" in let Hl := fresh "Hl" in
  let text := fresh "text" in let Hb := fresh "Hb" in
  let lang := fresh "lang" in let name := fresh "name" in
  let warn := fresh "warn" in let r := fresh "r" in let cs := fresh "cs" in
  let Hsup := fresh "Hsup" in let Hname := fresh "Hname" in
  let Hres := fresh "Hres" in let Hsum := fresh "Hsum" in
  let e := fresh "e" in let summary := fresh "summary" in
  let path := fresh "path" in let Hout := fresh "Hout" in
  let Htruthy := fresh "Htruthy" in let old := fresh "old" in
  let Hfile := fresh "Hfile" in let bs := fresh "bs" in
  let Henc := fresh "Henc" in let rcls := fresh "rcls" in
  let rmsg := fresh "rmsg" in let Href := fresh "Href" in
  destruct (run_outcome a w)
    as [[Hrej Hrun]
       | (args & Hp &
          [(cls & msg & Hl & Hrun)
          | (text & Hl &
             [[Hb Hrun]
             | (Hb & lang & name & warn & r & cs &
                Hsup & Hname & Hres & Hsum & Hrun)])])];
  [ | | |
    destruct r as [e | summary];
    [ | cbv zeta in Hrun;
        destruct (output args) as [path |] eqn:Hout;
        [ destruct (truthy path) eqn:Htruthy;
          [ destruct (files w !! path) as [[old |] |] eqn:Hfile;
            destruct (refuses (files w) path) as [[rcls rmsg] |] eqn:Href;
            destruct (utf8_encode summary) as [bs |] eqn:Henc | ]
        | ] ] ].

(** ** The driver's exit status and the saved file *)

(** C4 (amended). A [--language] value outside the parser's choices ends the
    process with status 2 before anything is read or printed. Once the
    arguments parse, the language given is [auto] or a supported code; a
    load failure and a blank text each end the process with status 1 after
    printing one error line, with nothing else done. Past these, the
    language the driver resolves, detected or given, is a supported code,
    so that the status lines are printed and the driver's own exit for an
    unsupported language is not taken; the status is then 0 or 1, and it is
    0 exactly when every later stage succeeds: the summarizer returns a
    summary and, if a non-empty output path is given, writing the summary
    there succeeds. *)
Theorem main_exit_status (a : argv) (w : world) :
  (forall l, raw_language a = Some l -> l ∉ language_choices ->
     run' a w = (2, w)) /\
  (forall args : args, parse_args a w = (inr args, w) ->
     (language args = lit "auto" \/ language args ∈ SUPPORTED_LANGS) /\
     (forall cls msg, load (input args) w = (inl (Raise cls msg), w) ->
        run' a w =
          (1, World (files w)
                (stdout w ++ [lit "❌ Ошибка загрузки файла: " ++ msg])
                (calls w))) /\
     (forall text, load (input args) w = (inr text, w) ->
        forallb isspace text = true ->
        run' a w =
          (1, World (files w) (stdout w ++ [lit "❌ Файл пустой"]) (calls w))) /\
     (forall text, load (input args) w = (inr text, w) ->
        forallb isspace text = false ->
        exists (lang name : list Z) (warn : list (list Z)),
          (if bool_decide (language args = lit "auto")
           then detect_language detect text w = (inr lang, printed w warn)
           else lang = language args /\ warn = []) /\
          lang ∈ SUPPORTED_LANGS /\ LANG_MAP !! lang = Some name /\
          (exists rest : list (list Z),
             stdout (snd (run' a w)) =
               stdout w ++ warn ++ status_lines lang name (compression args)
               ++ rest) /\
          (fst (run' a w) = 0 \/ fst (run' a w) = 1) /\
          (fst (run' a w) = 0 <->
             exists summary : list Z,
               fst (summarize text lang (compression args) 1024 w)
                 = inr summary /\
               match output args with
               | Some path =>
                   truthy path = true ->
                   fst (write_text path summary w) = inr tt
               | None => True
               end))).
Proof.
  split.
  - intros l Hl Hout. apply run_parse_error.
    unfold parse_args. destruct (raw_input a); [| reflexivity].
    rewrite Hl. cbn [default].
    rewrite (bool_decide_eq_false_2 _ Hout). reflexivity.
  - intros args Hp.
    destruct (parse_args_cases a w) as [Hbad | (args' & Hp' & Hl & _)];
      [congruence |].
    assert (args' = args) by congruence. subst args'.
    split; [exact (language_choice_supported _ Hl) |].
    split; [intros cls msg; apply run_load_error; exact Hp |].
    split; [intros text; apply run_blank; exact Hp |].
    intros text Hload Hnb.
    destruct (main_stages a args text w Hp Hload Hnb)
      as (lang & name & warn & Hsup & Hname & Hres & Hmain).
    destruct (summarize_text_frame token encoding tokenizer_from_pretrained
                model_from_pretrained tokenizer_call tokenize generate decode
                text (compression args) 1024) as (r & cs & Hnx & Hsum).
    exists lang, name, warn.
    split; [exact Hres |]. split; [exact Hsup |]. split; [exact Hname |].
    rewrite Hsum in Hmain. rewrite (Hsum lang w). cbn [fst files stdout calls] in *.
    unfold run. rewrite Hmain. clear Hmain.
    destruct r as [e | summary].
    { destruct e as [cls msg | code]; [| exfalso; exact (Hnx code eq_refl)].
      cbn [fst snd stdout].
      split; [exists []; rewrite app_nil_r; reflexivity |].
      split; [auto |].
      split; [discriminate | intros (summary & [=] & _)]. }
    assert (Hpre : forall tail : list (list Z),
              (stdout w ++ warn ++ status_lines lang name (compression args))
                ++ display_lines summary ++ tail
              = stdout w ++ warn ++ status_lines lang name (compression args)
                ++ display_lines summary ++ tail)
      by (intros tail; rewrite <- !app_assoc; reflexivity).
    destruct (output args) as [path |].
    2: { cbn [ret fst snd stdout].
         split; [eexists; rewrite <- (app_nil_r (display_lines summary));
                 apply Hpre |].
         split; [auto |]. split; [eauto | reflexivity]. }
    destruct (truthy path).
    2: { cbn [ret fst snd stdout].
         split; [eexists; rewrite <- (app_nil_r (display_lines summary));
                 apply Hpre |].
         split; [auto |]. split; [| reflexivity].
         intros _. exists summary. split; [reflexivity | discriminate]. }
    match goal with
    | |- context [bind (write_text path summary) _ ?W] =>
        pose proof (write_text_frame path summary w (stdout W) (calls W)) as Hfr;
        destruct (write_text_cases path summary W)
          as [(bs & Henc & Hw) | (cls & msg & fs & Hw)]
    end; cbn [files stdout calls] in Hw, Hfr; rewrite Hw in Hfr; cbn [fst] in Hfr.
    + rewrite (bind_ok _ _ _ _ _ Hw), print_eq. cbn [fst snd stdout files calls].
      split; [eexists; rewrite <- app_assoc; apply Hpre |]. split; [auto |].
      split; [| reflexivity]. intros _. exists summary.
      split; [reflexivity | intros _; symmetry; exact Hfr].
    + rewrite (bind_err _ _ _ _ _ Hw). cbn [fst snd stdout files calls].
      split; [eexists; rewrite <- (app_nil_r (display_lines summary));
              apply Hpre |].
      split; [auto |]. split; [discriminate |].
      intros (s' & [= <-] & H). specialize (H eq_refl).
      rewrite <- Hfr in H. discriminate.
Qed.

(** C8. A run given no output path, or an empty one, leaves every file as it
    was. A run given an output path that ends with status 0 leaves in the
    file that path names exactly the UTF-8 encoding of the summary the
    summarizer returned, in place of whatever was there: afterwards every
    path that names that file gives these bytes and every other path what
    it gave before; and its last printed line is the confirmation. The run
    does end so whenever the earlier stages succeed, the path does not name
    a directory, the system does not refuse to open it for writing, and the
    summary can be encoded. *)
Theorem main_persist (a : argv) (w : world) :
  (raw_output a = None \/ raw_output a = Some [] ->
     files (snd (run' a w)) = files w) /\
  (forall path, raw_output a = Some path -> path <> [] ->
     fst (run' a w) = 0 ->
     exists (text summary : list Z) (bs : list byte) (pre : list (list Z)),
       (forall lang w0,
          fst (summarize text lang (default 30 (raw_compression a)) 1024 w0)
            = inr summary) /\
       utf8_encode summary = Some bs /\
       files (snd (run' a w)) = <[path := File bs]> (files w) /\
       (forall q,
          files (snd (run' a w)) !! q =
            if decide (resolve (files w) q = resolve (files w) path)
            then Some (File bs) else files w !! q) /\
       stdout (snd (run' a w))
         = stdout w ++ pre ++
             [summary; [10] ++ lit "✅ Результат сохранён в: " ++ path]) /\
  (forall (args : args) (text summary path : list Z) (bs : list byte),
     parse_args a w = (inr args, w) ->
     load (input args) w = (inr text, w) ->
     forallb isspace text = false ->
     fst (summarize text (language args) (compression args) 1024 w)
       = inr summary ->
     output args = Some path -> path <> [] ->
     files w !! path <> Some Dir ->
     refuses (files w) path = None ->
     utf8_encode summary = Some bs ->
     fst (run' a w) = 0 /\
     files (snd (run' a w)) = <[path := File bs]> (files w) /\
     (forall q,
        files (snd (run' a w)) !! q =
          if decide (resolve (files w) q = resolve (files w) path)
          then Some (File bs) else files w !! q)).
Proof.
  assert (Hf : forall pa, parse_args a w = (inr pa, w) ->
                 output pa = raw_output a /\
                 compression pa = default 30 (raw_compression a)).
  { intros pa Hp.
    destruct (parse_args_cases a w) as [Hbad | (pa' & Hp' & H)];
      [congruence |].
    assert (pa' = pa) by congruence. subst pa'. tauto. }
  split; [| split].
  - intros Hnone.
    run_stages a w; rewrite Hrun; cbn [snd files]; try reflexivity;
      exfalso; destruct (Hf pa Hp) as [Ho _]; rewrite Hout in Ho;
      destruct Hnone as [Hn | Hn]; rewrite Hn in Ho; try discriminate;
      injection Ho as ->; discriminate.
  - intros p Hsome Hne Hzero.
    assert (Htr : truthy p = true)
      by (destruct p; [contradiction | reflexivity]).
    run_stages a w; rewrite Hrun in *; cbn [fst] in Hzero; try discriminate;
      destruct (Hf pa Hp) as [Ho Hc]; rewrite Hout, Hsome in Ho;
      try discriminate; injection Ho as ->; try congruence;
      cbn [snd files stdout];
      exists text, summary, bs,
        (warn ++ status_lines lang name (compression pa)
         ++ [[10] ++ banner; lit "📝 РЕЗЮМЕ:"; banner]);
      (split; [intros l w0; rewrite <- Hc, Hsum; reflexivity |]);
      (split; [exact Henc |]); (split; [reflexivity |]);
      (split; [intros q; apply lookup_written |]);
      unfold display_lines, confirmation_line; rewrite <- !app_assoc;
      reflexivity.
  - intros args text summary path bs Hp Hload Hnb Hsumm Ho Hne Hdir Href Henc.
    assert (Htr : truthy path = true)
      by (destruct path; [contradiction | reflexivity]).
    destruct (main_stages a args text w Hp Hload Hnb)
      as (lang & name & warn & _ & _ & _ & Hmain).
    destruct (summarize_text_frame token encoding tokenizer_from_pretrained
                model_from_pretrained tokenizer_call tokenize generate decode
                text (compression args) 1024) as (r & cs & _ & Hsum).
    rewrite Hsum in Hsumm. cbn [fst] in Hsumm. subst r.
    rewrite Hsum, Ho, Htr in Hmain.
    unfold run. rewrite Hmain.
    unfold bind, write_text, print; cbn [files stdout calls].
    rewrite Href, Henc.
    destruct (files w !! path) as [[old |] |]; [| contradiction |];
      (split; [reflexivity |]); (split; [reflexivity |]);
      intros q; apply lookup_written.
Qed.

(** ** Further verified properties *)


(** X2. Whatever the command line and the files, every generation call of a
    run asks for between 30 and 512 tokens at most and between 21 and
    [max_len] at least, with beam width 4 and early stopping. *)
Theorem main_generation_bounds (c : command_line) (w : world) :
  (forall pa text, parse_args c w = (inr pa, w) ->
     load (input pa) w = (inr text, w) ->
     Z.of_nat (length (tokenize text)) <= sys_maxsize) ->
  exists cs : list call,
    calls (snd (run' c w)) = calls w ++ cs /\
    forall mx mn b e, In (Generate mx mn b e) cs ->
      30 <= mx <= 512 /\ 21 <= mn <= mx /\ b = 4 /\ e = true.
Proof.
  intros Hlen.
  assert (Hnone : forall w', calls w' = calls w ->
            exists cs, calls w' = calls w ++ cs /\
              forall mx mn b e, In (Generate mx mn b e) cs ->
                30 <= mx <= 512 /\ 21 <= mn <= mx /\ b = 4 /\ e = true).
  { intros w' Hw. exists []. rewrite app_nil_r. split; [exact Hw |].
    intros mx mn b e []. }
  destruct c as [usage | | a]; [apply Hnone; reflexivity.. |].
  assert (Hsome : forall args text r cs w',
            parse_args a w = (inr args, w) ->
            load (input args) w = (inr text, w) ->
            forallb isspace text = false ->
            (forall l w0, summarize text l (compression args) 1024 w0
                          = (r, logged w0 cs)) ->
            calls w' = calls w ++ cs ->
            exists cs, calls w' = calls w ++ cs /\
              forall mx mn b e, In (Generate mx mn b e) cs ->
                30 <= mx <= 512 /\ 21 <= mn <= mx /\ b = 4 /\ e = true).
  { intros args text r cs w' Hp Hl Hb Hsum Hw. exists cs. split; [exact Hw |].
    assert (Hne : truthy (strip text) = true)
      by (rewrite StrFacts.truthy_strip, Hb; reflexivity).
    destruct (summarize_text_calls text (compression args) 1024 r cs Hne Hsum)
      as (_ & Hgen & _).
    intros mx mn b e Hin. destruct (Hgen mx mn b e Hin) as ([t Ht] & -> & ->).
    destruct (parse_args_cases a w) as [Hbad | (args' & Hp' & _ & Hc & _)];
      [congruence |].
    assert (args' = args) by congruence. subst args'.
    apply compression_choices_range in Hc.
    destruct (MoreFacts.length_bounds_range
                (Z.of_nat (length (tokenize text))) (compression args) t mx mn)
      as (_ & _ & Hmx & Hmn);
      [split; [apply Nat2Z.is_nonneg | exact (Hlen args text Hp Hl)]
      | lia | exact Ht |].
    auto. }
  run_stages a w;
    first [ apply Hnone; rewrite Hrun; reflexivity
          | eapply Hsome;
            [eassumption | eassumption | eassumption | eassumption
            | rewrite Hrun; reflexivity] ].
Qed.

(** X3. A run calls the model library only when the file loaded and its text
    is not blank, and then the first call is the tokenizer load: inside
    [main] the summarizer's own blank-text return is never taken. *)
Theorem main_first_call (c : command_line) (w : world) :
  (calls (snd (run' c w)) = calls w \/
   exists rest, calls (snd (run' c w))
                = calls w ++ TokenizerFromPretrained model_name :: rest) /\
  ((exists rest, calls (snd (run' c w))
                 = calls w ++ TokenizerFromPretrained model_name :: rest) <->
   (exists args text,
      parse_args c w = (inr args, w) /\
      load (input args) w = (inr text, w) /\
      forallb isspace text = false)).
Proof.
  assert (Hno : forall w' rest,
            calls w' = calls w ->
            calls w' = calls w ++ TokenizerFromPretrained model_name :: rest ->
            False).
  { intros w' rest H1 H2. rewrite H1 in H2.
    rewrite <- (app_nil_r (calls w)) in H2 at 1.
    apply app_inv_head in H2. discriminate. }
  assert (Hfirst : forall text k r cs,
            forallb isspace text = false ->
            (forall l w0, summarize text l k 1024 w0 = (r, logged w0 cs)) ->
            exists rest, cs = TokenizerFromPretrained model_name :: rest).
  { intros text k r cs Hb Hsum.
    assert (Hne : truthy (strip text) = true)
      by (rewrite StrFacts.truthy_strip, Hb; reflexivity).
    exact (proj1 (summarize_text_calls text k 1024 r cs Hne Hsum)). }
  destruct c as [usage | | a];
    [ split; [left; reflexivity |]; split;
      [ intros [rest Hrest]; exfalso; exact (Hno _ rest eq_refl Hrest)
      | intros (pa' & text' & Hp' & _); discriminate ] .. |].
  run_stages a w; rewrite Hrun; cbn [snd calls];
    first
      [ solve
          [ split; [left; reflexivity |]; split;
            [ intros [rest Hrest]; exfalso; exact (Hno w rest eq_refl Hrest)
            | intros (pa' & text' & Hp' & Hl' & Hb'); exfalso; congruence ] ]
      | destruct (Hfirst _ _ _ _ Hb Hsum) as [rest ->];
        (split; [right; eexists; reflexivity |]);
        (split; [intros _; exists pa, text; auto | intros _; eexists; reflexivity]) ].
Qed.

(** X4. A run changes no file but the one the [--output] path names: a
    path that does not name that file gives after the run what it gave
    before, whatever the status; so the input file is left as it was unless
    the output path names it too. *)
Theorem main_touches_only_output (a : argv) (w : world) (q : list Z) :
  (forall p, raw_output a = Some p ->
     resolve (files w) q <> resolve (files w) p) ->
  files (snd (run' a w)) !! q = files w !! q.
Proof.
  intros Hq.
  assert (Ho : forall args, parse_args a w = (inr args, w) ->
                            output args = raw_output a).
  { intros args Hp.
    destruct (parse_args_cases a w) as [Hbad | (args' & Hp' & H)];
      [congruence |].
    assert (args' = args) by congruence. subst args'. tauto. }
  run_stages a w; rewrite Hrun; cbn [snd files]; try reflexivity;
    rewrite lookup_written; apply decide_False; apply Hq;
    rewrite <- (Ho pa Hp); exact Hout.
Qed.

Lemma resolved_warning (pa : args) (text lang : list Z) (warn : list (list Z))
    (w : world) :
  (if bool_decide (language pa = lit "auto")
   then detect_language detect text w = (inr lang, printed w warn)
   else lang = language pa /\ warn = []) ->
  warn = [] \/
  exists l, detect text = inr l /\ (l ∉ SUPPORTED_LANGS) /\
            lang = lit "en" /\ warn = [warning_line l].
Proof.
  assert (Hnil : forall w0 : world,
            w0 = printed w0 warn -> warn = []).
  { intros w0 H. apply (f_equal stdout) in H. cbn [stdout] in H.
    rewrite <- (app_nil_r (stdout w0)) in H at 1.
    apply app_inv_head in H. auto. }
  case_bool_decide as Hauto; [| tauto].
  rewrite detect_language_outcome.
  destruct (detect text) as [m | l].
  - intros [= _ H]. left. exact (Hnil w H).
  - case_bool_decide as Hin.
    + intros [= _ H]. left. exact (Hnil w H).
    + intros [= <- H]. right. exists l.
      apply app_inv_head in H. auto.
Qed.

(** X5. When a checkpoint cannot be loaded, a run that got as far as the
    summarizer ends with status 1 after the status lines: no banner and no
    summary are printed, nothing is generated and no file is written, also
    when [--output] is given; a failed tokenizer load means the model load
    is not even tried. *)
Theorem main_checkpoint_failure (a : argv) (pa : args) (text msg : list Z)
    (w : world) :
  parse_args a w = (inr pa, w) ->
  load (input pa) w = (inr text, w) ->
  forallb isspace text = false ->
  tokenizer_from_pretrained model_name = inl msg \/
  (tokenizer_from_pretrained model_name = inr tt /\
   model_from_pretrained model_name = inl msg) ->
  exists (lang name : list Z) (warn : list (list Z)) (cs : list call),
    run' a w =
      (1, World (files w)
            (stdout w ++ warn ++ status_lines lang name (compression pa))
            (calls w ++ cs)) /\
    LANG_MAP !! lang = Some name /\
    ((tokenizer_from_pretrained model_name = inl msg /\
      cs = [TokenizerFromPretrained model_name]) \/
     (tokenizer_from_pretrained model_name = inr tt /\
      cs = [TokenizerFromPretrained model_name; ModelFromPretrained model_name])).
Proof.
  intros Hp Hl Hb Hfail.
  assert (Hne : truthy (strip text) = true)
    by (rewrite StrFacts.truthy_strip, Hb; reflexivity).
  destruct (main_stages a pa text w Hp Hl Hb)
    as (lang & name & warn & _ & Hname & _ & Hmain).
  rewrite (summarize_text_outcome text lang (compression pa) 1024 _ Hne) in Hmain.
  exists lang, name, warn.
  destruct Hfail as [Ht | [Ht Hm]].
  - rewrite Ht in Hmain. eexists. split; [| split; [exact Hname | left; eauto]].
    unfold run. rewrite Hmain. reflexivity.
  - rewrite Ht, Hm in Hmain. eexists. split; [| split; [exact Hname | right; eauto]].
    unfold run. rewrite Hmain. reflexivity.
Qed.

(** X6. The transcript of a run that ends with status 0, a request for help
    apart: after an optional
    warning naming the unsupported code detected, the language line with
    the name [LANG_MAP] gives, the compression line, the progress notice,
    the banner around the title, the summary, and the confirmation exactly
    when a non-empty output path was given. *)
Theorem main_transcript (a : argv) (w : world) :
  fst (run' a w) = 0 ->
  exists (lang name summary : list Z) (warn : list (list Z)),
    LANG_MAP !! lang = Some name /\
    (warn = [] \/
     exists l, (l ∉ SUPPORTED_LANGS) /\ lang = lit "en" /\ warn = [warning_line l]) /\
    stdout (snd (run' a w)) =
      stdout w ++ warn
      ++ status_lines lang name (default 30 (raw_compression a))
      ++ display_lines summary
      ++ match raw_output a with
         | Some path => if truthy path then [confirmation_line path] else []
         | None => []
         end.
Proof.
  intros Hzero.
  assert (Hf : forall pa, parse_args a w = (inr pa, w) ->
                 output pa = raw_output a /\
                 compression pa = default 30 (raw_compression a)).
  { intros pa Hp.
    destruct (parse_args_cases a w) as [Hbad | (pa' & Hp' & H)];
      [congruence |].
    assert (pa' = pa) by congruence. subst pa'. tauto. }
  assert (Hw : forall pa text lang warn,
            (if bool_decide (language pa = lit "auto")
             then detect_language detect text w = (inr lang, printed w warn)
             else lang = language pa /\ warn = []) ->
            warn = [] \/
            exists l, (l ∉ SUPPORTED_LANGS) /\ lang = lit "en" /\
                      warn = [warning_line l]).
  { intros pa text lang warn H.
    destruct (resolved_warning pa text lang warn w H)
      as [-> | (l & _ & Hl & -> & ->)]; [auto | right; eauto]. }
  run_stages a w; rewrite Hrun in *; cbn [fst] in Hzero; try discriminate;
    destruct (Hf pa Hp) as [Ho Hc]; rewrite <- Ho, <- Hc, Hout;
    rewrite ?Htruthy; cbn [snd stdout];
    exists lang, name, summary, warn;
    (split; [exact Hname |]); (split; [exact (Hw pa text lang warn Hres) |]);
    rewrite <- ?app_assoc, ?app_nil_r; reflexivity.
Qed.

Lemma try_except_load_inr (path : list Z) (h : list Z -> M (list Z))
    (text : list Z) (w w' : world) :
  (forall msg w0 x w1, h msg w0 <> (inr x, w1)) ->
  try_except (load path) h w = (inr text, w') ->
  load path w = (inr text, w) /\ w' = w.
Proof.
  intros Hh. unfold try_except.
  destruct (load_text_cases pdf_pages decode_error path w)
    as [(cls & msg & Hl) | (text' & Hl)]; rewrite Hl.
  - intros H. exfalso. exact (Hh _ _ _ _ H).
  - intros [= -> <-]. auto.
Qed.

Lemma load_handler_exits (msg : list Z) (w0 : world) (x : list Z) (w1 : world) :
  (print (lit "❌ Ошибка загрузки файла: " ++ msg) ;; sys_exit 1) w0
    <> (inr x, w1).
Proof. unfold bind, print, sys_exit, raise. discriminate. Qed.

(** X7. With [--language] set to a code other than [auto] the detector is
    not consulted: the whole run (status, output, files, calls) is the same
    under any detector. *)
Theorem main_explicit_language (detect2 : list Z -> list Z + list Z)
    (a : argv) (l : list Z) (w : world) :
  raw_language a = Some l -> l <> lit "auto" ->
  run token encoding detect2 pdf_pages decode_error tokenizer_from_pretrained
    model_from_pretrained tokenizer_call tokenize generate decode a w
  = run' a w.
Proof.
  intros Hl Hne. unfold run.
  assert (Hmain : main token encoding detect2 pdf_pages decode_error
                    tokenizer_from_pretrained model_from_pretrained
                    tokenizer_call tokenize generate decode a w
                  = main' a w); [| rewrite Hmain; reflexivity].
  unfold main. apply bind_ext. intros pa w1 Hp.
  assert (Hlang : language pa <> lit "auto").
  { destruct (parse_args_cases a w) as [Hbad | (pa' & Hp' & _ & _ & _ & Hla & _)];
      [congruence |].
    assert (pa' = pa) by congruence. subst pa'.
    rewrite Hla, Hl. exact Hne. }
  apply bind_ext. intros text w2 _.
  apply bind_ext. intros [] w3 _.
  rewrite (bool_decide_eq_false_2 _ Hlang). reflexivity.
Qed.

(** X8. When [--language] is [auto] or absent and the detector raises on the
    loaded text, the run is the one [--language en] gives: same status, same
    lines, same files and calls, and no warning. *)
Theorem main_fallback_is_english (a : argv) (i : list Z) (w : world) :
  raw_input a = Some i ->
  raw_language a = None \/ raw_language a = Some (lit "auto") ->
  (forall text, load i w = (inr text, w) -> exists msg, detect text = inl msg) ->
  run' a w
  = run' (Argv (Some i) (Some (lit "en")) (raw_compression a) (raw_output a)) w.
Proof.
  intros Hi Hla Hdet. unfold run.
  assert (Hmain : main' a w =
                  main' (Argv (Some i) (Some (lit "en")) (raw_compression a)
                           (raw_output a)) w); [| rewrite Hmain; reflexivity].
  assert (Hauto : default (lit "auto") (raw_language a) = lit "auto")
    by (destruct Hla as [-> | ->]; reflexivity).
  unfold main, parse_args. rewrite Hi. cbn [raw_input raw_language
    raw_compression raw_output default]. rewrite Hauto.
  change (bool_decide (lit "auto" ∈ language_choices)) with true.
  change (bool_decide (lit "en" ∈ language_choices)) with true.
  cbn [negb].
  destruct (bool_decide (default 30 (raw_compression a) ∈ compression_choices));
    cbn [negb]; [| reflexivity].
  rewrite (bind_ok (ret (Args i (lit "auto") (default 30 (raw_compression a))
                          (raw_output a))) _ w w _ eq_refl).
  rewrite (bind_ok (ret (Args i (lit "en") (default 30 (raw_compression a))
                          (raw_output a))) _ w w _ eq_refl).
  cbn [input language compression output].
  apply bind_ext. intros text w2 Htry.
  apply try_except_load_inr in Htry as [Hload ->];
    [| intros msg w0 x w1; apply load_handler_exits].
  apply bind_ext. intros [] w3 _.
  change (bool_decide (lit "auto" = lit "auto")) with true.
  change (bool_decide (lit "en" = lit "auto")) with false.
  cbv iota.
  destruct (Hdet text Hload) as [msg Hmsg].
  assert (Hd : detect_language detect text w3 = (inr (lit "en"), w3))
    by (rewrite detect_language_outcome, Hmsg; reflexivity).
  rewrite (bind_ok _ _ _ _ _ Hd).
  rewrite (bind_ok (ret (lit "en")) _ w3 w3 _ eq_refl). reflexivity.
Qed.

(** X9. On an existing file whose path ends in [.pdf] (any letter case)
    [load_text] returns the texts of the pages joined in page order with
    nothing between them, a page without text adding nothing; an error
    inside the PDF library is passed on. *)
Theorem load_text_pdf (path : list Z) (w : world) (bs : list byte) :
  files w !! path = Some (File bs) ->
  endswith (lower path) (lit ".pdf") = true ->
  load path w =
    (match pdf_pages bs with
     | inr pages => inr (concat (map (default []) pages))
     | inl msg => inl (Raise LibraryError msg)
     end, w).
Proof.
  intros Hbs Hpdf.
  pose proof (pdf_not_txt _ Hpdf) as Htxt.
  unfold load_text, pdfplumber_open, bind, library, ret, raise.
  rewrite (proj2 (isfile_true w path) (ex_intro _ bs Hbs)). cbn [negb].
  rewrite Htxt, Hpdf, Hbs.
  destruct (pdf_pages bs) as [msg | pages]; [reflexivity |].
  rewrite MoreFacts.fold_left_pages. reflexivity.
Qed.

(** X10. A PDF none of whose pages has text other than whitespace (a scanned
    document) is reported as an empty file: one line, status 1, nothing
    else. *)
Theorem main_pdf_without_text (a : argv) (pa : args) (w : world)
    (bs : list byte) (pages : list (option (list Z))) :
  parse_args a w = (inr pa, w) ->
  files w !! input pa = Some (File bs) ->
  endswith (lower (input pa)) (lit ".pdf") = true ->
  pdf_pages bs = inr pages ->
  Forall (fun p => forallb isspace (default [] p) = true) pages ->
  run' a w = (1, printed w [lit "❌ Файл пустой"]).
Proof.
  intros Hp Hbs Hpdf Hpages Hblank.
  pose proof (pdf_not_txt _ Hpdf) as Htxt.
  apply (run_blank _ _ _ _ _ _ _ _ _ _ _ a pa
           (concat (map (default []) pages)) w Hp).
  - unfold load_text, pdfplumber_open, bind, library, ret, raise.
    rewrite (proj2 (isfile_true w (input pa)) (ex_intro _ bs Hbs)). cbn [negb].
    rewrite Htxt, Hpdf, Hbs, Hpages, MoreFacts.fold_left_pages. reflexivity.
  - exact (MoreFacts.forallb_concat_blank pages Hblank).
Qed.

(** X11. The line printed for each way the load can fail, always with
    status 1: the path that names no regular file, the file with another
    suffix, the [.txt] file that is not valid UTF-8, and the PDF the library
    rejects. *)
Theorem main_load_failure_lines (a : argv) (pa : args) (w : world) :
  parse_args a w = (inr pa, w) ->
  (isfile w (input pa) = false ->
   run' a w =
     (1, printed w [lit "❌ Ошибка загрузки файла: "
                    ++ (lit "Файл не найден: " ++ input pa)])) /\
  (isfile w (input pa) = true ->
   endswith (lower (input pa)) (lit ".txt") = false ->
   endswith (lower (input pa)) (lit ".pdf") = false ->
   run' a w =
     (1, printed w [lit "❌ Ошибка загрузки файла: " ++ UNSUPPORTED_FORMAT])) /\
  (forall bs, files w !! input pa = Some (File bs) ->
   endswith (lower (input pa)) (lit ".txt") = true ->
   utf8_decode bs = None ->
   run' a w =
     (1, printed w [lit "❌ Ошибка загрузки файла: " ++ decode_error bs])) /\
  (forall bs msg, files w !! input pa = Some (File bs) ->
   endswith (lower (input pa)) (lit ".pdf") = true ->
   pdf_pages bs = inl msg ->
   run' a w = (1, printed w [lit "❌ Ошибка загрузки файла: " ++ msg])).
Proof.
  intros Hp. repeat split.
  - intros Hf.
    apply (run_load_error _ _ _ _ _ _ _ _ _ _ _ a pa FileNotFoundError _ w Hp).
    unfold load_text. rewrite Hf. reflexivity.
  - intros Hf Htxt Hpdf.
    apply (run_load_error _ _ _ _ _ _ _ _ _ _ _ a pa ValueError _ w Hp).
    unfold load_text. rewrite Hf, Htxt, Hpdf. reflexivity.
  - intros bs Hbs Htxt Hdec.
    apply (run_load_error _ _ _ _ _ _ _ _ _ _ _ a pa UnicodeDecodeError _ w Hp).
    unfold load_text, read_text.
    rewrite (proj2 (isfile_true w (input pa)) (ex_intro _ bs Hbs)). cbn [negb].
    rewrite Htxt, Hbs, Hdec. reflexivity.
  - intros bs msg Hbs Hpdf Hmsg.
    apply (run_load_error _ _ _ _ _ _ _ _ _ _ _ a pa LibraryError _ w Hp).
    unfold load_text, pdfplumber_open, bind, library, raise.
    rewrite (proj2 (isfile_true w (input pa)) (ex_intro _ bs Hbs)). cbn [negb].
    rewrite (pdf_not_txt _ Hpdf), Hpdf, Hbs, Hmsg. reflexivity.
Qed.

(** X12. What a successful run saved under a [.txt] name, [load_text] reads
    back: on the state the run leaves, loading the output path returns the
    summary that was displayed, with its line endings normalised to [\n]. *)
Theorem main_saved_summary_loads (a : argv) (w : world) (path : list Z) :
  raw_output a = Some path -> path <> [] ->
  endswith (lower path) (lit ".txt") = true ->
  fst (run' a w) = 0 ->
  exists (summary : list Z) (pre : list (list Z)),
    stdout (snd (run' a w))
      = stdout w ++ pre ++ [summary; confirmation_line path] /\
    load path (snd (run' a w))
      = (inr (universal_newlines summary), snd (run' a w)).
Proof.
  intros Ho Hne Htxt Hzero.
  assert (Hf : forall pa, parse_args a w = (inr pa, w) ->
                 output pa = raw_output a).
  { intros pa Hp.
    destruct (parse_args_cases a w) as [Hbad | (pa' & Hp' & H)];
      [congruence |].
    assert (pa' = pa) by congruence. subst pa'. tauto. }
  assert (Htr : truthy path = true) by (destruct path; [contradiction | reflexivity]).
  assert (Hread : forall summary bs out cs,
            utf8_encode summary = Some bs ->
            load path (World (<[path := File bs]> (files w)) out cs)
            = (inr (universal_newlines summary),
               World (<[path := File bs]> (files w)) out cs)).
  { intros summary bs out cs Henc. unfold load_text, read_text, isfile.
    cbn [files]. rewrite lookup_written, decide_True by reflexivity.
    cbn [negb]. rewrite Htxt.
    rewrite (MoreFacts.utf8_decode_encode summary bs Henc). reflexivity. }
  run_stages a w; rewrite Hrun in *; cbn [fst] in Hzero; try discriminate;
    pose proof (Hf pa Hp) as Hos; rewrite Hout, Ho in Hos;
    try discriminate; injection Hos as ->; try congruence;
    cbn [snd stdout];
    exists summary,
      (warn ++ status_lines lang name (compression pa)
       ++ [[10] ++ banner; lit "📝 РЕЗЮМЕ:"; banner]);
    (split; [unfold display_lines; rewrite <- !app_assoc; reflexivity |]);
    apply Hread; exact Henc.
Qed.

(** X17. When the summary is ready and the output path cannot be opened for
    writing, because it names a directory or because the system refuses it
    (no such parent directory, no permission), the run ends with status 1
    after displaying the summary: no confirmation is printed and every file
    is as it was. *)
Theorem main_save_failure (a : argv) (pa : args) (text summary path : list Z)
    (w : world) :
  parse_args a w = (inr pa, w) ->
  load (input pa) w = (inr text, w) ->
  forallb isspace text = false ->
  fst (summarize text (language pa) (compression pa) 1024 w) = inr summary ->
  output pa = Some path -> path <> [] ->
  files w !! path = Some Dir \/ refuses (files w) path <> None ->
  exists (lang name : list Z) (warn : list (list Z)) (cs : list call),
    run' a w =
      (1, World (files w)
            (stdout w ++ warn ++ status_lines lang name (compression pa)
             ++ display_lines summary)
            (calls w ++ cs)).
Proof.
  intros Hp Hload Hnb Hsumm Ho Hne Hfail.
  assert (Htr : truthy path = true)
    by (destruct path; [contradiction | reflexivity]).
  destruct (main_stages a pa text w Hp Hload Hnb)
    as (lang & name & warn & _ & _ & _ & Hmain).
  destruct (summarize_text_frame token encoding tokenizer_from_pretrained
              model_from_pretrained tokenizer_call tokenize generate decode
              text (compression pa) 1024) as (r & cs & _ & Hsum).
  rewrite Hsum in Hsumm. cbn [fst] in Hsumm. subst r.
  rewrite Hsum, Ho, Htr in Hmain.
  exists lang, name, warn, cs.
  unfold run. rewrite Hmain.
  unfold bind, write_text, print; cbn [files stdout calls].
  destruct Hfail as [Hdir | Href].
  - rewrite Hdir. rewrite <- !app_assoc. reflexivity.
  - destruct (refuses (files w) path) as [[rcls rmsg] |]; [| contradiction].
    destruct (files w !! path) as [[old |] |];
      rewrite <- !app_assoc; reflexivity.
Qed.

End StageOutcomes.

(** ** Further verified properties of the length arithmetic *)

(** X13. While [input_len * compression] stays below 3100 (a text of up to
    154 tokens at 20 percent, up to 61 at 50 percent) the bounds are always
    the same: 30 tokens at most and 21 at least. *)
Theorem length_bounds_small (n c : Z) :
  0 <= n -> 0 <= c <= 100 -> n * c < 3100 ->
  length_bounds n c = Some (30, 30, 21).
Proof.
  intros Hn Hc Hsmall.
  destruct (LengthFacts.target_len_total n c) as (t & Ht & _ & Hex & _).
  { split; [nia |]. change (2 ^ 70) with 1180591620717411303424. lia. }
  assert (Hq : n * c / 100 < 31)
    by (apply Z.div_lt_upper_bound; lia).
  assert (Ht30 : t = 30).
  { rewrite Hex; [lia |]. change (2 ^ 52) with 4503599627370496. lia. }
  unfold length_bounds. rewrite Ht, Ht30.
  change (max_len 30) with 30.
  change (min_len 30) with (Some 21). reflexivity.
Qed.

(** X14. From [input_len * compression = 51200] on (a text of 2560 tokens at
    20 percent, 1024 at 50 percent) the bounds no longer grow: 512 tokens at
    most and 358 at least. *)
Theorem length_bounds_saturated (n c : Z) :
  0 <= n <= sys_maxsize -> 0 <= c <= 100 -> 51200 <= n * c ->
  exists t : Z, length_bounds n c = Some (t, 512, 358) /\ 512 <= t.
Proof.
  intros Hn Hc Hbig.
  destruct (LengthFacts.length_bounds_closed_form n c Hn Hc)
    as (t & Hb & _ & Hmx & _).
  assert (Hq : 512 <= n * c / 100) by (apply Z.div_le_lower_bound; lia).
  replace (Z.min 512 (Z.max 30 (n * c / 100))) with 512 in * by lia.
  exists t. split; [exact Hb | lia].
Qed.

(** X15. [min_len] is 70 percent of [max_len] rounded down, or one below
    that: [10 * min_len <= 7 * max_len < 10 * min_len + 20]. *)
Theorem min_len_seventy_percent (n c t mx mn : Z) :
  0 <= n <= sys_maxsize -> 0 <= c <= 100 ->
  length_bounds n c = Some (t, mx, mn) ->
  10 * mn <= 7 * mx < 10 * mn + 20.
Proof.
  intros Hn Hc Hb.
  destruct (MoreFacts.length_bounds_range n c t mx mn Hn Hc Hb)
    as (_ & -> & _ & _).
  unfold trunc_0_7. destruct (bool_decide (mx ∈ rounds_below));
    Z.div_mod_to_equations; lia.
Qed.

(** X16. [max_len] never exceeds the larger of 30 and the token count: the
    summary may be longer than the text only for texts under 30 tokens,
    where the bounds are 30 and 21 whatever the compression. *)
Theorem max_len_at_most_input (n c t mx mn : Z) :
  0 <= n <= sys_maxsize -> 0 <= c <= 100 ->
  length_bounds n c = Some (t, mx, mn) ->
  mx <= Z.max 30 n /\ (n < 30 -> mx = 30 /\ mn = 21).
Proof.
  intros Hn Hc Hb.
  destruct (MoreFacts.length_bounds_range n c t mx mn Hn Hc Hb)
    as (Hmx & Hmn & _ & _).
  assert (Hq : n * c / 100 <= n).
  { apply Z.div_le_upper_bound; [lia |]. nia. }
  split; [lia |]. intros Hsmall.
  assert (H30 : mx = 30) by lia.
  split; [exact H30 |]. rewrite Hmn, H30. reflexivity.
Qed.

(** ** The driver's properties at concrete inputs *)

Lemma main_exit_status_witness :
  fst (Demo.run_demo
         (Argv (Some (lit "notes.TXT")) None None (Some (lit "out.txt")))
         Demo.disk) = 0 /\
  Demo.run_demo (Argv (Some (lit "missing.pdf")) None None None) Demo.disk
    = (1, World (files Demo.disk)
            [lit "❌ Ошибка загрузки файла: " ++
               (lit "Файл не найден: " ++ lit "missing.pdf")]
            []).
Proof.
  split.
  - destruct (main_exit_status Z (list Z) Demo.detect_fr Demo.no_pages
                Demo.codec_message Demo.loaded Demo.loaded Demo.truncated
                Demo.code_points Demo.answer_X Demo.same
                (Argv (Some (lit "notes.TXT")) None None (Some (lit "out.txt")))
                Demo.disk)
      as [_ H].
    destruct (H (Args (lit "notes.TXT") (lit "auto") 30 (Some (lit "out.txt"))))
      as (_ & _ & _ & Hrun); [vm_compute; reflexivity |].
    destruct (Hrun Demo.text)
      as (lang & name & warn & _ & _ & _ & _ & _ & Hzero);
      [vm_compute; reflexivity | vm_compute; reflexivity |].
    apply Hzero. exists (lit "X"). split.
    + vm_compute. reflexivity.
    + intros _. vm_compute. reflexivity.
  - destruct (main_exit_status Z (list Z) Demo.detect_fr Demo.no_pages
                Demo.codec_message Demo.loaded Demo.loaded Demo.truncated
                Demo.code_points Demo.answer_X Demo.same
                (Argv (Some (lit "missing.pdf")) None None None) Demo.disk)
      as [_ H].
    destruct (H (Args (lit "missing.pdf") (lit "auto") 30 None))
      as (_ & Hload & _); [vm_compute; reflexivity |].
    apply (Hload FileNotFoundError (lit "Файл не найден: " ++ lit "missing.pdf")).
    vm_compute. reflexivity.
Defined.

(** C4, as stated, fails for [--language fr]: the argument parser ends the
    process with status 2, not 1. *)
Lemma invalid_language_status :
  fst (Demo.run_demo
         (Argv (Some (lit "notes.TXT")) (Some (lit "fr")) None None) Demo.disk)
    <> 1.
Proof. vm_compute. discriminate. Qed.

Lemma main_persist_witness :
  fst (Demo.run_demo
         (Argv (Some (lit "notes.TXT")) (Some (lit "en")) (Some 30)
            (Some (lit "./notes.TXT"))) Demo.disk) = 0 /\
  files (snd (Demo.run_demo
                (Argv (Some (lit "notes.TXT")) (Some (lit "en")) (Some 30)
                   (Some (lit "./notes.TXT"))) Demo.disk))
    = <[lit "./notes.TXT" := File [x58]]> (files Demo.disk) /\
  files (snd (Demo.run_demo
                (Argv (Some (lit "notes.TXT")) (Some (lit "en")) (Some 30)
                   (Some (lit "./notes.TXT"))) Demo.disk)) !! lit "notes.TXT"
    = Some (File [x58]).
Proof.
  destruct (main_persist Z (list Z) Demo.detect_fr Demo.no_pages
              Demo.codec_message Demo.loaded Demo.loaded Demo.truncated
              Demo.code_points Demo.answer_X Demo.same
              (Argv (Some (lit "notes.TXT")) (Some (lit "en")) (Some 30)
                 (Some (lit "./notes.TXT"))) Demo.disk)
    as (_ & _ & H).
  destruct (H (Args (lit "notes.TXT") (lit "en") 30 (Some (lit "./notes.TXT")))
              Demo.text (lit "X") (lit "./notes.TXT") [x58])
    as (Hzero & Hfiles & Hq).
  - vm_compute. reflexivity.
  - vm_compute. reflexivity.
  - vm_compute. reflexivity.
  - vm_compute. reflexivity.
  - reflexivity.
  - vm_compute. discriminate.
  - vm_compute. discriminate.
  - vm_compute. reflexivity.
  - vm_compute. reflexivity.
  - split; [exact Hzero |]. split; [exact Hfiles |].
    exact (Hq (lit "notes.TXT")).
Defined.

(** Saving under a directory that does not exist, or over a file that may
    not be written, fails after the summary is displayed: status 1, no
    confirmation, every file as it was. *)
Example run_missing_directory :
  Demo.run_demo
    (Argv (Some (lit "notes.TXT")) (Some (lit "en")) None
       (Some (lit "nodir/out.txt"))) Demo.disk
  = (1, World (files Demo.disk)
          (status_lines (lit "en") (lit "english") 30 ++ display_lines (lit "X"))
          (preparation Demo.text 1024 ++ [Generate 30 21 4 true; Decode])).
Proof. vm_compute. reflexivity. Qed.

Example run_read_only :
  fst (Offline.run_online
         (Argv (Some (lit "notes.txt")) None None (Some (lit "report.txt")))
         Offline.disk) = 1 /\
  files (snd (Offline.run_online
                (Argv (Some (lit "notes.txt")) None None (Some (lit "report.txt")))
                Offline.disk)) = files Offline.disk.
Proof. vm_compute. split; reflexivity. Qed.

(** A request for help wins over a missing [--input]: the help text is
    printed and the status is 0. *)
Example run_help_request :
  Demo.run_demo (Help (lit "usage: main.py [-h] --input INPUT")) Demo.disk
  = (0, World (files Demo.disk) [lit "usage: main.py [-h] --input INPUT"] []).
Proof. vm_compute. reflexivity. Qed.

(** ** The further properties at concrete inputs *)

Lemma main_generation_bounds_witness :
  exists cs : list call,
    calls (snd (Demo.run_demo
                  (Argv (Some (lit "notes.TXT")) None (Some 50) None) Demo.disk))
      = calls Demo.disk ++ cs /\
    forall mx mn b e, In (Generate mx mn b e) cs ->
      30 <= mx <= 512 /\ 21 <= mn <= mx /\ b = 4 /\ e = true.
Proof.
  apply (main_generation_bounds Z (list Z) Demo.detect_fr Demo.no_pages
           Demo.codec_message Demo.loaded Demo.loaded Demo.truncated
           Demo.code_points Demo.answer_X Demo.same).
  intros pa text Hp Hl.
  vm_compute in Hp. inversion Hp; subst pa; clear Hp.
  vm_compute in Hl. inversion Hl; subst text; clear Hl.
  vm_compute. discriminate.
Defined.

Lemma main_touches_only_output_witness :
  files (snd (Demo.run_demo
                (Argv (Some (lit "notes.TXT")) None None (Some (lit "./out.txt")))
                Demo.disk)) !! lit "notes.TXT"
  = files Demo.disk !! lit "notes.TXT".
Proof.
  apply (main_touches_only_output Z (list Z) Demo.detect_fr Demo.no_pages
           Demo.codec_message Demo.loaded Demo.loaded Demo.truncated
           Demo.code_points Demo.answer_X Demo.same).
  intros p H. injection H as <-. vm_compute. discriminate.
Defined.

Lemma main_checkpoint_failure_witness :
  fst (Offline.run_offline
         (Argv (Some (lit "notes.txt")) None None (Some (lit "out.txt")))
         Offline.disk) = 1 /\
  files (snd (Offline.run_offline
                (Argv (Some (lit "notes.txt")) None None (Some (lit "out.txt")))
                Offline.disk)) = files Offline.disk.
Proof.
  destruct (main_checkpoint_failure Z (list Z) Demo.detect_fr Offline.scanned
              Demo.codec_message Offline.no_network Demo.loaded Demo.truncated
              Demo.code_points Demo.answer_X Demo.same
              (Argv (Some (lit "notes.txt")) None None (Some (lit "out.txt")))
              (Args (lit "notes.txt") (lit "auto") 30 (Some (lit "out.txt")))
              Demo.text (lit "checkpoint unavailable") Offline.disk)
    as (lang & name & warn & cs & Hrun & _).
  - vm_compute. reflexivity.
  - vm_compute. reflexivity.
  - vm_compute. reflexivity.
  - left. reflexivity.
  - unfold Offline.run_offline. rewrite Hrun. split; reflexivity.
Defined.

Lemma main_transcript_witness :
  exists (lang name summary : list Z) (warn : list (list Z)),
    LANG_MAP !! lang = Some name /\
    (warn = [] \/
     exists l, (l ∉ SUPPORTED_LANGS) /\ lang = lit "en" /\ warn = [warning_line l]) /\
    stdout (snd (Demo.run_demo
                   (Argv (Some (lit "notes.TXT")) None None (Some (lit "out.txt")))
                   Demo.disk)) =
      stdout Demo.disk ++ warn
      ++ status_lines lang name 30
      ++ display_lines summary
      ++ [confirmation_line (lit "out.txt")].
Proof.
  apply (main_transcript Z (list Z) Demo.detect_fr Demo.no_pages
           Demo.codec_message Demo.loaded Demo.loaded Demo.truncated
           Demo.code_points Demo.answer_X Demo.same
           (Argv (Some (lit "notes.TXT")) None None (Some (lit "out.txt")))
           Demo.disk).
  vm_compute. reflexivity.
Defined.

Lemma main_explicit_language_witness :
  Offline.run_online
    (Argv (Some (lit "notes.txt")) (Some (lit "ru")) None None) Offline.disk
  = run Z (list Z) Demo.detect_fr Offline.two_pages Demo.codec_message
      Demo.loaded Demo.loaded Demo.truncated Demo.code_points Demo.answer_X
      Demo.same
      (Argv (Some (lit "notes.txt")) (Some (lit "ru")) None None) Offline.disk.
Proof.
  apply (main_explicit_language Z (list Z) Demo.detect_fr Offline.two_pages
           Demo.codec_message Demo.loaded Demo.loaded Demo.truncated
           Demo.code_points Demo.answer_X Demo.same Offline.detect_raises
           (Argv (Some (lit "notes.txt")) (Some (lit "ru")) None None)
           (lit "ru") Offline.disk).
  - reflexivity.
  - intros H. vm_compute in H. discriminate.
Defined.

Lemma main_fallback_is_english_witness :
  Offline.run_online (Argv (Some (lit "notes.txt")) None None None) Offline.disk
  = Offline.run_online
      (Argv (Some (lit "notes.txt")) (Some (lit "en")) None None) Offline.disk.
Proof.
  apply (main_fallback_is_english Z (list Z) Offline.detect_raises
           Offline.two_pages Demo.codec_message Demo.loaded Demo.loaded
           Demo.truncated Demo.code_points Demo.answer_X Demo.same
           (Argv (Some (lit "notes.txt")) None None None) (lit "notes.txt")
           Offline.disk).
  - reflexivity.
  - left. reflexivity.
  - intros text _. eexists. reflexivity.
Defined.

Lemma load_text_pdf_witness :
  load_text Offline.two_pages Demo.codec_message (lit "scan.PDF") Offline.disk
  = (inr [97; 98; 99], Offline.disk).
Proof.
  apply (load_text_pdf Offline.two_pages Demo.codec_message (lit "scan.PDF")
           Offline.disk [x25; x50; x44; x46]).
  - vm_compute. reflexivity.
  - reflexivity.
Defined.

Lemma main_pdf_without_text_witness :
  Offline.run_offline (Argv (Some (lit "scan.PDF")) None None None) Offline.disk
  = (1, World (files Offline.disk)
          (stdout Offline.disk ++ [lit "❌ Файл пустой"]) (calls Offline.disk)).
Proof.
  apply (main_pdf_without_text Z (list Z) Demo.detect_fr Offline.scanned
           Demo.codec_message Offline.no_network Demo.loaded Demo.truncated
           Demo.code_points Demo.answer_X Demo.same
           (Argv (Some (lit "scan.PDF")) None None None)
           (Args (lit "scan.PDF") (lit "auto") 30 None) Offline.disk
           [x25; x50; x44; x46] [None; Some []; None]).
  - vm_compute. reflexivity.
  - vm_compute. reflexivity.
  - reflexivity.
  - reflexivity.
  - repeat constructor.
Defined.

Lemma main_load_failure_lines_witness :
  Offline.run_online (Argv (Some (lit "data.docx")) None None None) Offline.disk
  = (1, World (files Offline.disk)
          (stdout Offline.disk
           ++ [lit "❌ Ошибка загрузки файла: " ++ UNSUPPORTED_FORMAT])
          (calls Offline.disk)).
Proof.
  destruct (main_load_failure_lines Z (list Z) Offline.detect_raises
              Offline.two_pages Demo.codec_message Demo.loaded Demo.loaded
              Demo.truncated Demo.code_points Demo.answer_X Demo.same
              (Argv (Some (lit "data.docx")) None None None)
              (Args (lit "data.docx") (lit "auto") 30 None) Offline.disk)
    as (_ & H & _); [vm_compute; reflexivity |].
  apply H; reflexivity.
Defined.

Lemma main_saved_summary_loads_witness :
  exists (summary : list Z) (pre : list (list Z)),
    stdout (snd (Demo.run_demo
                   (Argv (Some (lit "notes.TXT")) None None (Some (lit "out.txt")))
                   Demo.disk))
      = stdout Demo.disk ++ pre ++ [summary; confirmation_line (lit "out.txt")] /\
    Demo.load_demo (lit "out.txt")
      (snd (Demo.run_demo
              (Argv (Some (lit "notes.TXT")) None None (Some (lit "out.txt")))
              Demo.disk))
    = (inr (universal_newlines summary),
       snd (Demo.run_demo
              (Argv (Some (lit "notes.TXT")) None None (Some (lit "out.txt")))
              Demo.disk)).
Proof.
  apply (main_saved_summary_loads Z (list Z) Demo.detect_fr Demo.no_pages
           Demo.codec_message Demo.loaded Demo.loaded Demo.truncated
           Demo.code_points Demo.answer_X Demo.same
           (Argv (Some (lit "notes.TXT")) None None (Some (lit "out.txt")))
           Demo.disk (lit "out.txt")).
  - reflexivity.
  - intros H. vm_compute in H. discriminate.
  - reflexivity.
  - vm_compute. reflexivity.
Defined.

Lemma main_save_failure_witness :
  fst (Demo.run_demo
         (Argv (Some (lit "notes.TXT")) (Some (lit "en")) None
            (Some (lit "./nodir/out.txt"))) Demo.disk) = 1 /\
  files (snd (Demo.run_demo
                (Argv (Some (lit "notes.TXT")) (Some (lit "en")) None
                   (Some (lit "./nodir/out.txt"))) Demo.disk))
    = files Demo.disk.
Proof.
  destruct (main_save_failure Z (list Z) Demo.detect_fr Demo.no_pages
              Demo.codec_message Demo.loaded Demo.loaded Demo.truncated
              Demo.code_points Demo.answer_X Demo.same
              (Argv (Some (lit "notes.TXT")) (Some (lit "en")) None
                 (Some (lit "./nodir/out.txt")))
              (Args (lit "notes.TXT") (lit "en") 30 (Some (lit "./nodir/out.txt")))
              Demo.text (lit "X") (lit "./nodir/out.txt") Demo.disk)
    as (lang & name & warn & cs & Hrun).
  - vm_compute. reflexivity.
  - vm_compute. reflexivity.
  - vm_compute. reflexivity.
  - vm_compute. reflexivity.
  - reflexivity.
  - vm_compute. discriminate.
  - right. vm_compute. discriminate.
  - unfold Demo.run_demo. rewrite Hrun. split; reflexivity.
Defined.

Lemma length_bounds_small_witness : length_bounds 100 30 = Some (30, 30, 21).
Proof. apply (length_bounds_small 100 30); lia. Defined.

Lemma length_bounds_saturated_witness :
  exists t : Z, length_bounds 3000 20 = Some (t, 512, 358) /\ 512 <= t.
Proof.
  apply (length_bounds_saturated 3000 20); [unfold sys_maxsize |..]; lia.
Defined.

Lemma min_len_seventy_percent_witness : 10 * 62 <= 7 * 90 < 10 * 62 + 20.
Proof.
  apply (min_len_seventy_percent 300 30 90 90 62).
  - unfold sys_maxsize. lia.
  - lia.
  - vm_compute. reflexivity.
Defined.

Lemma max_len_at_most_input_witness :
  30 <= Z.max 30 10 /\ (10 < 30 -> 30 = 30 /\ 21 = 21).
Proof.
  apply (max_len_at_most_input 10 50 30 30 21).
  - unfold sys_maxsize. lia.
  - lia.
  - vm_compute. reflexivity.
Defined.
